(** * PokemonBattle: the game session controller

    A shallow embedding of [src/components/PokemonBattle.tsx] and of the
    record types of [types/pokemon.ts].  JavaScript numbers that the game
    only ever uses as integers (identifiers, base stats, streaks, the
    cooldown) are modelled as [Z]; [T | null] is [option T]; the module-level
    [pokemonCache] ([Map<number, Pokemon>]) is a [gmap Z Pokemon]. *)

From Stdlib Require Import ZArith Lia.
From stdpp Require Import gmap strings list.

Local Open Scope Z_scope.

(** ** Data model ([types/pokemon.ts] and the component's [GameState]) *)

Record StatEntry := mkStat {
  base_stat : Z;
  stat_name : string
}.

Record Pokemon := mkPokemon {
  id : Z;
  name : string;
  front_default : string;
  stats : list StatEntry;
  types : list string
}.

Inductive Result := correct | wrong.
Inductive GameStatus := start | playing | gameOver.
Inductive Difficulty := easy | hard.

Record GameState := mkGameState {
  pokemon1 : option Pokemon;
  pokemon2 : option Pokemon;
  userChoice : option Z;
  streak : Z;
  highScore : Z;
  isLoading : bool;
  result : option Result;
  achievements : list string;
  gameStatus : GameStatus;
  difficulty : Difficulty;
  cooldown : Z
}.

#[global] Instance Difficulty_eq_dec : EqDecision Difficulty.
Proof. solve_decision. Defined.

#[global] Instance GameStatus_eq_dec : EqDecision GameStatus.
Proof. solve_decision. Defined.

#[global] Instance Result_eq_dec : EqDecision Result.
Proof. solve_decision. Defined.

(** ** Pure helpers *)

(** [pokemon.stats.reduce((sum, stat) => sum + stat.base_stat, 0)] *)
Definition calculateTotalStats (pokemon : Pokemon) : Z :=
  fold_left (fun sum stat => sum + base_stat stat) (stats pokemon) 0.

(** [Math.abs(p1Total - p2Total) <= 50] *)
Definition isSimilarStats (p1 p2 : Pokemon) : bool :=
  let p1Total := calculateTotalStats p1 in
  let p2Total := calculateTotalStats p2 in
  let difference := Z.abs (p1Total - p2Total) in
  difference <=? 50.

(** [p1Power >= p2Power ? 1 : 2] *)
Definition calculateWinner (p1 p2 : Pokemon) : Z :=
  let p1Power := calculateTotalStats p1 in
  let p2Power := calculateTotalStats p2 in
  if p1Power >=? p2Power then 1 else 2.

(** ** State updates of the component

    Every [setGameState(prev => ({ ...prev, ... }))] of the source is a
    function on [GameState] that copies the fields it does not name. *)

(** The lazy initialiser of [useState]; [saved] is what
    [localStorage.getItem('pokemonHighScore')] holds.  The component only
    ever writes [streak.toString()] under that key, so the stored text is
    modelled by the integer it denotes. *)
Definition initialState (saved : option Z) : GameState :=
  {| pokemon1 := None; pokemon2 := None; userChoice := None;
     streak := 0;
     highScore := match saved with Some h => h | None => 0 end;
     isLoading := false; result := None; achievements := [];
     gameStatus := start; difficulty := easy; cooldown := 0 |}.

(** [setGameState(prev => ({ ...prev, highScore: prev.streak }))] *)
Definition setHighScore (prev : GameState) : GameState :=
  {| pokemon1 := pokemon1 prev; pokemon2 := pokemon2 prev;
     userChoice := userChoice prev; streak := streak prev;
     highScore := streak prev;
     isLoading := isLoading prev; result := result prev;
     achievements := achievements prev; gameStatus := gameStatus prev;
     difficulty := difficulty prev; cooldown := cooldown prev |}.

(** [setGameState(prev => ({ ...prev, cooldown: prev.cooldown - 1 }))] *)
Definition decrementCooldown (prev : GameState) : GameState :=
  {| pokemon1 := pokemon1 prev; pokemon2 := pokemon2 prev;
     userChoice := userChoice prev; streak := streak prev;
     highScore := highScore prev;
     isLoading := isLoading prev; result := result prev;
     achievements := achievements prev; gameStatus := gameStatus prev;
     difficulty := difficulty prev; cooldown := cooldown prev - 1 |}.

(** [setGameState(prev => ({ ...prev, isLoading: b }))] *)
Definition setLoading (b : bool) (prev : GameState) : GameState :=
  {| pokemon1 := pokemon1 prev; pokemon2 := pokemon2 prev;
     userChoice := userChoice prev; streak := streak prev;
     highScore := highScore prev;
     isLoading := b; result := result prev;
     achievements := achievements prev; gameStatus := gameStatus prev;
     difficulty := difficulty prev; cooldown := cooldown prev |}.

(** The state update of [loadNewBattle] once both records are there. *)
Definition setBattle (p1 p2 : Pokemon) (prev : GameState) : GameState :=
  {| pokemon1 := Some p1; pokemon2 := Some p2;
     userChoice := None; streak := streak prev;
     highScore := highScore prev;
     isLoading := false; result := None;
     achievements := achievements prev; gameStatus := gameStatus prev;
     difficulty := difficulty prev; cooldown := 0 |}.

(** [setGameState(prev => ({ ...prev, gameStatus: 'playing', streak: 0,
    difficulty }))] of [startGame]. *)
Definition setPlaying (d : Difficulty) (prev : GameState) : GameState :=
  {| pokemon1 := pokemon1 prev; pokemon2 := pokemon2 prev;
     userChoice := userChoice prev; streak := 0;
     highScore := highScore prev;
     isLoading := isLoading prev; result := result prev;
     achievements := achievements prev; gameStatus := playing;
     difficulty := d; cooldown := cooldown prev |}.

(** The single state update of [handleChoice]. *)
Definition setChoice (choice : Z) (isCorrect : bool) (newStreak : Z)
    (prev : GameState) : GameState :=
  {| pokemon1 := pokemon1 prev; pokemon2 := pokemon2 prev;
     userChoice := Some choice; streak := newStreak;
     highScore := highScore prev;
     isLoading := isLoading prev;
     result := Some (if isCorrect then correct else wrong);
     achievements := achievements prev;
     gameStatus := if negb isCorrect then gameOver else playing;
     difficulty := difficulty prev;
     cooldown := if isCorrect then 3 else 0 |}.

(** [handleChoice]: the new state, and whether
    [setTimeout(loadNewBattle, 3000)] was armed.  The guard is the source's
    [!pokemon1 || !pokemon2 || cooldown > 0]. *)
Definition handleChoice (choice : Z) (gameState : GameState) : GameState * bool :=
  match pokemon1 gameState, pokemon2 gameState with
  | Some p1, Some p2 =>
      if cooldown gameState >? 0 then (gameState, false)
      else
        let winner := calculateWinner p1 p2 in
        let isCorrect := choice =? winner in
        let newStreak := if isCorrect then streak gameState + 1 else 0 in
        (setChoice choice isCorrect newStreak gameState, isCorrect)
  | _, _ => (gameState, false)
  end.

(** [startGame]'s synchronous part: its own state update followed by the
    first update of [loadNewBattle] ([isLoading: true]); the fetches of that
    [loadNewBattle] are still in flight when [startGame] returns. *)
Definition startGame (d : Difficulty) (gameState : GameState) : GameState :=
  setLoading true (setPlaying d gameState).

(** The continuation of [loadNewBattle] after its two [await]s:
    [if (pokemon1 && pokemon2) setGameState(...)], and nothing otherwise. *)
Definition battleLoaded (o1 o2 : option Pokemon) (prev : GameState) : GameState :=
  match o1, o2 with
  | Some p1, Some p2 => setBattle p1 p2 prev
  | _, _ => prev
  end.

(** The interval of the cooldown effect exists only while [cooldown > 0]
    (it is cleared and re-created each time [cooldown] changes), so one
    tick is a decrement under that guard. *)
Definition cooldownTick (gameState : GameState) : GameState :=
  if cooldown gameState >? 0 then decrementCooldown gameState else gameState.

(** ** The lookup service and the cache

    [Math.random] and the HTTP service are the environment: the [k]-th
    draw of [Math.floor(Math.random() * 898)] and the answer to the [k]-th
    request ([None]: [axios.get] rejects).  [Net] is what the fetching code
    mutates: how many draws and requests were consumed, and the cache. *)

Record Env := mkEnv {
  Math_random_898 : nat -> Z;
  axios_get : nat -> Z -> option Pokemon
}.

Record Net := mkNet {
  draws : nat;
  requests : nat;
  pokemonCache : gmap Z Pokemon
}.

(** A computation that may throw ([None]) and keeps its effects on [Net]
    when it does. *)
Definition Async (A : Type) : Type := Net -> option A * Net.

#[global] Instance Async_ret : MRet Async := fun A a net => (Some a, net).

#[global] Instance Async_bind : MBind Async := fun A B k m net =>
  match m net with
  | (Some a, net') => k a net'
  | (None, net') => (None, net')
  end.

(** [Math.floor(Math.random() * 898) + 1] *)
Definition randomId (env : Env) : Async Z := fun net =>
  (Some (Math_random_898 env (draws net) + 1),
   {| draws := S (draws net); requests := requests net;
      pokemonCache := pokemonCache net |}).

(** [(await axios.get(`.../pokemon/${id}`)).data] *)
Definition axiosGet (env : Env) (i : Z) : Async Pokemon := fun net =>
  (axios_get env (requests net) i,
   {| draws := draws net; requests := S (requests net);
      pokemonCache := pokemonCache net |}).

(** [pokemonCache.has(id) ? pokemonCache.get(id) : absent] *)
Definition cacheGet (i : Z) : Async (option Pokemon) := fun net =>
  (Some (pokemonCache net !! i), net).

(** [pokemonCache.set(id, pokemon)] *)
Definition cacheSet (i : Z) (pokemon : Pokemon) : Async unit := fun net =>
  (Some tt,
   {| draws := draws net; requests := requests net;
      pokemonCache := <[i := pokemon]> (pokemonCache net) |}).

(** [try { ... } catch (error) { return null }] *)
Definition catchNull {A : Type} (m : Async A) (net : Net) : option A * Net := m net.

(** The acceptance test of the sampling loop,
    [!excludePokemon || (gameState.difficulty === 'hard' &&
    isSimilarStats(pokemon, excludePokemon))].  [captured] is the
    [gameState.difficulty] the [useCallback] closure was built with. *)
Definition accepts (captured : Difficulty) (excludePokemon : option Pokemon)
    (pokemon : Pokemon) : bool :=
  match excludePokemon with
  | None => true
  | Some ex => bool_decide (captured = hard) && isSimilarStats pokemon ex
  end.

Definition maxAttempts : nat := 5.

(** [while (attempts < maxAttempts) { ... attempts++ }], by recursion on
    [maxAttempts - attempts].  [Some pokemon] is a [return pokemon] from
    inside the loop, [None] is falling out of it. *)
Fixpoint samplingLoop (env : Env) (captured : Difficulty)
    (excludePokemon : option Pokemon) (remaining : nat) : Async (option Pokemon) :=
  match remaining with
  | O => mret None
  | S remaining' =>
      i ← randomId env;
      cached ← cacheGet i;
      let request : Async (option Pokemon) :=
        pokemon ← axiosGet env i;
        _ ← cacheSet i pokemon;
        if accepts captured excludePokemon pokemon
        then mret (Some pokemon)
        else samplingLoop env captured excludePokemon remaining' in
      match cached with
      | Some pokemon =>
          if accepts captured excludePokemon pokemon
          then mret (Some pokemon)
          else request
      | None => request
      end
  end.

(** [fetchRandomPokemon(excludePokemon)]; the result [None] is [null]. *)
Definition fetchRandomPokemon (env : Env) (captured : Difficulty)
    (excludePokemon : option Pokemon) : Net -> option Pokemon * Net :=
  catchNull (
    found ← samplingLoop env captured excludePokemon maxAttempts;
    match found with
    | Some pokemon => mret pokemon
    | None =>
        lastId ← randomId env;
        axiosGet env lastId
    end).

(** [loadNewBattle], run to completion on a state: the loading flag, the
    two fetches (the second one excluding the first), and the final update.
    [captured] is the difficulty of the render this [loadNewBattle] was
    created in: for the call inside [startGame] that is the difficulty
    before [startGame]'s own update, for the timeout of [handleChoice] the
    difficulty of the round just played. *)
Definition loadNewBattle (env : Env) (captured : Difficulty)
    (gameState : GameState) (net : Net) : GameState * Net :=
  let loading := setLoading true gameState in
  let '(o1, net1) := fetchRandomPokemon env captured None net in
  let '(o2, net2) := fetchRandomPokemon env captured o1 net1 in
  (battleLoaded o1 o2 loading, net2).

(** ** The mounted component

    [stored] is the value under the key [pokemonHighScore]; [timers] counts
    the armed [setTimeout(loadNewBattle, 3000)], [inflight] the calls of
    [loadNewBattle] that are waiting for their fetches. *)

Record Session := mkSession {
  game : GameState;
  stored : option Z;
  timers : nat;
  inflight : nat
}.

(** The body of the high-score effect. *)
Definition highScoreEffect (s : Session) : Session :=
  if streak (game s) >? highScore (game s)
  then {| game := setHighScore (game s); stored := Some (streak (game s));
          timers := timers s; inflight := inflight s |}
  else s.

(** The effect has the dependency list [[gameState.streak]]: it runs after
    an update only when the streak changed. *)
Definition settle (before after : Session) : Session :=
  if streak (game before) =? streak (game after) then after
  else highScoreEffect after.

(** What the component returns, by the order of its [if]s. *)
Inductive Screen := loadingScreen | startScreen | gameOverScreen | battleScreen.

Definition render (gameState : GameState) : Screen :=
  if isLoading gameState then loadingScreen
  else match gameStatus gameState with
       | start => startScreen
       | gameOver => gameOverScreen
       | playing => battleScreen
       end.

(** The two cards are rendered on the battle screen when both records are
    there, and their buttons are disabled once [userChoice !== null]. *)
Definition chooseEnabled (gameState : GameState) : bool :=
  match render gameState, pokemon1 gameState, pokemon2 gameState,
        userChoice gameState with
  | battleScreen, Some _, Some _, None => true
  | _, _, _, _ => false
  end.

(** The difficulty buttons are on the start and the game-over screen. *)
Definition startEnabled (gameState : GameState) : bool :=
  match render gameState with
  | startScreen | gameOverScreen => true
  | _ => false
  end.

(** What can happen to the mounted component: a click on a difficulty
    button ([startGame(d)]) or on a Choose button ([handleChoice(choice)]),
    an armed timeout running [loadNewBattle], the two fetches of a waiting
    [loadNewBattle] coming back with [o1] and [o2] (the lookup service
    decides which), and a tick of the cooldown interval. *)
Inductive Event :=
  | clickStart (d : Difficulty)
  | clickChoose (choice : Z)
  | timeoutFires
  | fetchesResolve (o1 o2 : option Pokemon)
  | intervalFires.

Definition withGame (g : GameState) (s : Session) : Session :=
  {| game := g; stored := stored s; timers := timers s; inflight := inflight s |}.

(** The handler an event runs; an event the screen does not offer, or a
    timer that is not armed, does nothing. *)
Definition dispatch (e : Event) (s : Session) : Session :=
  match e with
  | clickStart d =>
      if startEnabled (game s)
      then {| game := startGame d (game s); stored := stored s;
              timers := timers s; inflight := S (inflight s) |}
      else s
  | clickChoose choice =>
      if chooseEnabled (game s)
      then let '(g, armed) := handleChoice choice (game s) in
           {| game := g; stored := stored s;
              timers := if armed then S (timers s) else timers s;
              inflight := inflight s |}
      else s
  | timeoutFires =>
      match timers s with
      | O => s
      | S n => {| game := setLoading true (game s); stored := stored s;
                  timers := n; inflight := S (inflight s) |}
      end
  | fetchesResolve o1 o2 =>
      match inflight s with
      | O => s
      | S n => {| game := battleLoaded o1 o2 (game s); stored := stored s;
                  timers := timers s; inflight := n |}
      end
  | intervalFires => withGame (cooldownTick (game s)) s
  end.

Definition react (e : Event) (s : Session) : Session :=
  settle s (dispatch e s).

(** The first render, with the high-score effect run once on mount. *)
Definition mount (saved : option Z) : Session :=
  highScoreEffect
    {| game := initialState saved; stored := saved; timers := 0; inflight := 0 |}.

Fixpoint run (s : Session) (events : list Event) : Session :=
  match events with
  | [] => s
  | e :: events' => run (react e s) events'
  end.

(** The largest streak among the states a run goes through. *)
Fixpoint peakStreak (s : Session) (events : list Event) : Z :=
  match events with
  | [] => streak (game s)
  | e :: events' => Z.max (streak (game s)) (peakStreak (react e s) events')
  end.

(** ** Sample records *)

Definition statsOf (total : Z) : list StatEntry :=
  [mkStat total "hp"].

Definition sample (i total : Z) : Pokemon :=
  mkPokemon i "sample" "sprite.png" (statsOf total) ["normal"].

(** A first round (totals 200 against 250) answered wrongly with
    candidate 1: the state the game-over screen is shown in. *)
Definition lostRound : GameState :=
  fst (handleChoice 1
         (setBattle (sample 1 200) (sample 2 250)
            (startGame easy (initialState None)))).

(** What holds of the session between two events. *)
Definition settled (s : Session) : Prop :=
  0 <= streak (game s) <= highScore (game s) /\
  0 <= cooldown (game s) <= 3 /\
  (gameStatus (game s) <> playing -> streak (game s) = 0).

(** Whether the requests of [n] loop iterations that accept nothing all
    succeed, from draw [d] and request [r] on: each such iteration draws
    one identifier and asks the service for it once. *)
Fixpoint loopReplies (env : Env) (d r : nat) (n : nat) : bool :=
  match n with
  | O => true
  | S n' =>
      match axios_get env r (Math_random_898 env d + 1) with
      | Some _ => loopReplies env (S d) (S r) n'
      | None => false
      end
  end.

Definition emptyNet : Net := mkNet 0 0 ∅.

(** Every draw is identifier 25 and the service always answers. *)
Definition repeatingEnv : Env :=
  {| Math_random_898 := fun _ => 24;
     axios_get := fun _ i => Some (sample i 320) |}.

(** The draws are 1, 2, 3, ...; record 6 totals 900, the others 500. *)
Definition countingEnv : Env :=
  {| Math_random_898 := fun k => Z.of_nat k;
     axios_get := fun _ i => Some (sample i (if i =? 6 then 900 else 500)) |}.

(** The service answers five requests and then goes down. *)
Definition flakyEnv : Env :=
  {| Math_random_898 := fun k => Z.of_nat k;
     axios_get := fun k i => if (k <? 5)%nat then Some (sample i 500) else None |}.

(** The service is down. *)
Definition offlineEnv : Env :=
  {| Math_random_898 := fun k => Z.of_nat k;
     axios_get := fun _ _ => None |}.

(** The round that [startGame('easy')] loads from the start screen when
    every draw repeats one identifier. *)
Definition repeatedRound : GameState :=
  fst (loadNewBattle repeatingEnv (difficulty (initialState None))
         (setPlaying easy (initialState None)) emptyNet).

(** ** The pre-fetch effect

    [Array.from({ length: n }, () => Math.floor(Math.random() * 898) + 1)]:
    the identifiers are drawn first, in order. *)
Fixpoint drawIds (env : Env) (n : nat) (net : Net) : list Z * Net :=
  match n with
  | O => ([], net)
  | S n' =>
      let i := Math_random_898 env (draws net) + 1 in
      let '(rest, net') :=
        drawIds env n' (mkNet (S (draws net)) (requests net) (pokemonCache net)) in
      (i :: rest, net')
  end.

(** The body of [for (const id of ids)]: an identifier that is cached is
    skipped; otherwise the record is requested and cached, and a failed
    request is logged and forgotten. *)
Definition preFetchOne (env : Env) (net : Net) (i : Z) : Net :=
  match pokemonCache net !! i with
  | Some _ => net
  | None =>
      match axios_get env (requests net) i with
      | Some pokemon =>
          mkNet (draws net) (S (requests net)) (<[i := pokemon]> (pokemonCache net))
      | None => mkNet (draws net) (S (requests net)) (pokemonCache net)
      end
  end.

Definition preFetchCount : nat := 20.

(** [preFetchPokemon], run to completion. *)
Definition preFetchPokemon (env : Env) (net : Net) : Net :=
  let '(ids, net') := drawIds env preFetchCount net in
  fold_left (preFetchOne env) ids net'.

(** The effect around it: [if (gameState.gameStatus === 'start')]. *)
Definition preFetchEffect (env : Env) (gameState : GameState) (net : Net) : Net :=
  if decide (gameStatus gameState = start) then preFetchPokemon env net else net.

(** [startGame(d)] with the [loadNewBattle] it calls run to completion.
    The [loadNewBattle] in scope of [startGame] belongs to the render the
    click happened in, so its [fetchRandomPokemon] still reads the
    difficulty of that render. *)
Definition startGameRound (env : Env) (d : Difficulty) (gameState : GameState)
    (net : Net) : GameState * Net :=
  loadNewBattle env (difficulty gameState) (setPlaying d gameState) net.

(** How the fields of a session hang together between two events. *)
Definition coherent (s : Session) : Prop :=
  let g := game s in
  (timers s + inflight s <= 1)%nat /\
  (inflight s = 1%nat -> isLoading g = true /\ gameStatus g = playing) /\
  (timers s = 1%nat ->
     isLoading g = false /\ result g = Some correct /\ gameStatus g = playing) /\
  (pokemon1 g = None <-> pokemon2 g = None) /\
  (userChoice g = None <-> result g = None) /\
  (0 < cooldown g -> result g = Some correct /\ gameStatus g = playing) /\
  (gameStatus g = gameOver ->
     result g = Some wrong /\ isLoading g = false /\ inflight s = 0%nat) /\
  (gameStatus g = start ->
     isLoading g = false /\ pokemon1 g = None /\ result g = None /\
     inflight s = 0%nat) /\
  (gameStatus g = playing -> isLoading g = false ->
     pokemon1 g <> None /\ result g <> Some wrong) /\
  achievements g = [] /\
  highScore g = default 0 (stored s).

(** Two states that differ at most in the cooldown. *)
Definition sameRound (g g' : GameState) : Prop :=
  pokemon1 g' = pokemon1 g /\ pokemon2 g' = pokemon2 g /\
  userChoice g' = userChoice g /\ result g' = result g /\
  streak g' = streak g /\ highScore g' = highScore g /\
  isLoading g' = isLoading g /\ gameStatus g' = gameStatus g /\
  difficulty g' = difficulty g /\ achievements g' = achievements g.

(** Two records with six stats each, totals 318 and 309. *)
Definition bulbasaur : Pokemon :=
  mkPokemon 1 "bulbasaur" "1.png"
    [mkStat 45 "hp"; mkStat 49 "attack"; mkStat 49 "defense";
     mkStat 65 "special-attack"; mkStat 65 "special-defense"; mkStat 45 "speed"]
    ["grass"; "poison"].

Definition charmander : Pokemon :=
  mkPokemon 4 "charmander" "4.png"
    [mkStat 39 "hp"; mkStat 52 "attack"; mkStat 43 "defense";
     mkStat 60 "special-attack"; mkStat 50 "special-defense"; mkStat 65 "speed"]
    ["fire"].

(** The draws are 1, 2, 3, ... and every record totals 320. *)
Definition similarEnv : Env :=
  {| Math_random_898 := fun k => Z.of_nat k;
     axios_get := fun _ i => Some (sample i 320) |}.



(** ** Proof tools *)

Ltac split_cases :=
  repeat match goal with
         | |- context [match ?x with _ => _ end] => destruct x eqn:?
         | H : context [match ?x with _ => _ end] |- _ => destruct x eqn:?
         end.

Ltac zbool :=
  repeat match goal with
         | H : (_ >? _) = true |- _ => apply Z.gtb_lt in H
         | H : (_ >? _) = false |- _ => rewrite Z.gtb_ltb in H; apply Z.ltb_ge in H
         | H : (_ >=? _) = true |- _ => rewrite Z.geb_leb in H; apply Z.leb_le in H
         | H : (_ >=? _) = false |- _ => rewrite Z.geb_leb in H; apply Z.leb_gt in H
         | H : (_ =? _) = true |- _ => apply Z.eqb_eq in H
         | H : (_ =? _) = false |- _ => apply Z.eqb_neq in H
         | H : (_ <=? _) = true |- _ => apply Z.leb_le in H
         | H : (_ <=? _) = false |- _ => apply Z.leb_gt in H
         end.

(** ** The winner rule *)

Lemma calculateWinner_cases (p1 p2 : Pokemon) :
  calculateWinner p1 p2 =
    if decide (calculateTotalStats p1 >= calculateTotalStats p2) then 1 else 2.
Proof.
  unfold calculateWinner; cbv zeta.
  destruct (calculateTotalStats p1 >=? calculateTotalStats p2) eqn:E;
    zbool; case_decide; lia || reflexivity.
Qed.

Lemma handleChoice_pass (choice : Z) (g : GameState) (p1 p2 : Pokemon) :
  pokemon1 g = Some p1 -> pokemon2 g = Some p2 -> cooldown g <= 0 ->
  handleChoice choice g =
    (setChoice choice (choice =? calculateWinner p1 p2)
       (if choice =? calculateWinner p1 p2 then streak g + 1 else 0) g,
     choice =? calculateWinner p1 p2).
Proof.
  intros H1 H2 Hc. unfold handleChoice. rewrite H1, H2.
  destruct (cooldown g >? 0) eqn:E; zbool; [lia | reflexivity].
Qed.

Lemma calculateTotalStats_sum (p : Pokemon) :
  calculateTotalStats p = foldr Z.add 0 (base_stat <$> stats p).
Proof.
  unfold calculateTotalStats.
  assert (H : forall (l : list StatEntry) (a : Z),
            fold_left (fun sum stat => sum + base_stat stat) l a =
              a + foldr Z.add 0 (base_stat <$> l)).
  { induction l as [| x l IH]; intros a; csimpl; [lia |]. rewrite IH. lia. }
  rewrite H. lia.
Qed.

(** C1: the total of a record is the sum of its base stats; for two
    present candidates the winner is 1 (candidate A) exactly when the sum
    of the first is greater than or equal to the sum of the second, and 2
    (candidate B) otherwise; equal sums give 1; and [handleChoice] records
    the choice and judges it against exactly that winner. *)
Theorem submitPrediction_winner (g : GameState) (p1 p2 : Pokemon) (choice : Z) :
  calculateTotalStats p1 = foldr Z.add 0 (base_stat <$> stats p1) /\
  calculateTotalStats p2 = foldr Z.add 0 (base_stat <$> stats p2) /\
  (calculateWinner p1 p2 = 1 <->
     foldr Z.add 0 (base_stat <$> stats p1) >= foldr Z.add 0 (base_stat <$> stats p2)) /\
  (calculateWinner p1 p2 = 2 <->
     foldr Z.add 0 (base_stat <$> stats p1) < foldr Z.add 0 (base_stat <$> stats p2)) /\
  (foldr Z.add 0 (base_stat <$> stats p1) = foldr Z.add 0 (base_stat <$> stats p2) ->
   calculateWinner p1 p2 = 1) /\
  (pokemon1 g = Some p1 -> pokemon2 g = Some p2 -> cooldown g <= 0 ->
   userChoice (fst (handleChoice choice g)) = Some choice /\
   result (fst (handleChoice choice g)) =
     Some (if decide (choice =
                        if decide (foldr Z.add 0 (base_stat <$> stats p1)
                                     >= foldr Z.add 0 (base_stat <$> stats p2))
                        then 1 else 2)
           then correct else wrong)).
Proof.
  rewrite <- !calculateTotalStats_sum.
  split; [reflexivity |]. split; [reflexivity |].
  assert (Hjudge : pokemon1 g = Some p1 -> pokemon2 g = Some p2 -> cooldown g <= 0 ->
            userChoice (fst (handleChoice choice g)) = Some choice /\
            result (fst (handleChoice choice g)) =
              Some (if decide (choice = calculateWinner p1 p2) then correct else wrong)).
  { intros H1 H2 Hc. rewrite (handleChoice_pass choice g p1 p2 H1 H2 Hc).
    cbn [fst result userChoice setChoice]. split; [reflexivity |].
    destruct (Z.eqb_spec choice (calculateWinner p1 p2)); case_decide; congruence. }
  rewrite calculateWinner_cases in *.
  destruct (decide (calculateTotalStats p1 >= calculateTotalStats p2)) as [Hge | Hlt].
  - split; [split; intros; lia || reflexivity |].
    split; [split; intros; lia || discriminate |].
    split; [reflexivity | exact Hjudge].
  - split; [split; intros; lia || discriminate |].
    split; [split; intros; lia || reflexivity |].
    split; [intros; lia | exact Hjudge].
Qed.

Lemma submitPrediction_winner_witness :
  calculateTotalStats bulbasaur = 318 /\
  calculateTotalStats charmander = 309 /\
  calculateWinner charmander bulbasaur = 2 /\
  calculateWinner (sample 1 280) (sample 2 280) = 1 /\
  result (fst (handleChoice 1 (setBattle charmander bulbasaur (initialState None))))
    = Some wrong /\
  result (fst (handleChoice 1 (setBattle bulbasaur charmander (initialState None))))
    = Some correct.
Proof.
  pose proof (submitPrediction_winner
    (setBattle charmander bulbasaur (initialState None)) charmander bulbasaur 1)
    as (Hc & Hb & _ & Hlt & _ & Hwrong).
  pose proof (submitPrediction_winner
    (setBattle bulbasaur charmander (initialState None)) bulbasaur charmander 1)
    as (_ & _ & _ & _ & _ & Hright).
  pose proof (submitPrediction_winner
    (setBattle (sample 1 280) (sample 2 280) (initialState None))
    (sample 1 280) (sample 2 280) 1) as (_ & _ & _ & _ & Htie & _).
  split; [exact Hb |]. split; [exact Hc |].
  split; [apply Hlt; vm_compute; reflexivity |].
  split; [apply Htie; reflexivity |].
  split.
  - exact (proj2 (Hwrong eq_refl eq_refl ltac:(simpl; lia))).
  - exact (proj2 (Hright eq_refl eq_refl ltac:(simpl; lia))).
Defined.

(** ** The guard of [handleChoice] *)

Lemma handleChoice_blocked (choice : Z) (g : GameState) :
  pokemon1 g = None \/ pokemon2 g = None \/ cooldown g > 0 ->
  handleChoice choice g = (g, false).
Proof.
  intros H. unfold handleChoice.
  destruct (pokemon1 g), (pokemon2 g); try reflexivity.
  destruct (cooldown g >? 0) eqn:E; [reflexivity | zbool].
  destruct H as [H | [H | H]]; congruence || lia.
Qed.

Lemma lostRound_fields :
  gameStatus lostRound = gameOver /\ userChoice lostRound = Some 1 /\
  cooldown lostRound = 0 /\ streak lostRound = 0.
Proof. repeat split. Qed.

(** C2: a click on a Choose button leaves the whole session unchanged
    (no error, no timeout armed) whenever the game is not being played,
    the loading screen is up, a candidate is missing, a choice is already
    recorded, or the cooldown is running.  Of these [handleChoice] itself
    tests the missing candidates and the cooldown; the others are kept
    from it by the screen, which shows no enabled Choose button then. *)
Theorem submitPrediction_guard (choice : Z) (s : Session) :
  (gameStatus (game s) <> playing \/ isLoading (game s) = true \/
   pokemon1 (game s) = None \/ pokemon2 (game s) = None \/
   userChoice (game s) <> None \/ cooldown (game s) > 0 ->
   react (clickChoose choice) s = s) /\
  (pokemon1 (game s) = None \/ pokemon2 (game s) = None \/ cooldown (game s) > 0 ->
   handleChoice choice (game s) = (game s, false)).
Proof.
  split; [| apply handleChoice_blocked].
  intros H. unfold react, dispatch.
  destruct (chooseEnabled (game s)) eqn:En.
  - unfold chooseEnabled, render in En.
    destruct (isLoading (game s)); [discriminate |].
    destruct (gameStatus (game s)) eqn:Hst; try discriminate.
    destruct (pokemon1 (game s)) eqn:H1; [| discriminate].
    destruct (pokemon2 (game s)) eqn:H2; [| discriminate].
    destruct (userChoice (game s)) eqn:Hu; [discriminate |].
    destruct H as [H | [H | [H | [H | [H | H]]]]]; try congruence.
    rewrite handleChoice_blocked by (right; right; exact H).
    unfold settle. rewrite Z.eqb_refl. destruct s; reflexivity.
  - unfold settle. rewrite Z.eqb_refl. reflexivity.
Qed.

Lemma submitPrediction_guard_witness :
  react (clickChoose 2) (mkSession lostRound None 0 0) = mkSession lostRound None 0 0 /\
  handleChoice 1 (initialState None) = (initialState None, false).
Proof.
  split.
  - apply (submitPrediction_guard 2 (mkSession lostRound None 0 0)).
    left. discriminate.
  - apply (submitPrediction_guard 1 (mkSession (initialState None) None 0 0)).
    left. reflexivity.
Defined.

(** ** Reachable sessions *)

Lemma highScoreEffect_game (s : Session) :
  game (highScoreEffect s) =
    if streak (game s) >? highScore (game s) then setHighScore (game s) else game s.
Proof. unfold highScoreEffect. destruct (_ >? _); reflexivity. Qed.

Lemma settle_streak (s s' : Session) :
  streak (game (settle s s')) = streak (game s').
Proof.
  unfold settle. destruct (_ =? _); [reflexivity |].
  rewrite highScoreEffect_game. destruct (_ >? _); reflexivity.
Qed.

Lemma settle_cooldown (s s' : Session) :
  cooldown (game (settle s s')) = cooldown (game s').
Proof.
  unfold settle. destruct (_ =? _); [reflexivity |].
  rewrite highScoreEffect_game. destruct (_ >? _); reflexivity.
Qed.

Lemma settle_gameStatus (s s' : Session) :
  gameStatus (game (settle s s')) = gameStatus (game s').
Proof.
  unfold settle. destruct (_ =? _); [reflexivity |].
  rewrite highScoreEffect_game. destruct (_ >? _); reflexivity.
Qed.

Lemma settle_highScore (s s' : Session) :
  streak (game s) <= highScore (game s) ->
  highScore (game s') = highScore (game s) ->
  highScore (game (settle s s')) = Z.max (highScore (game s)) (streak (game s')).
Proof.
  intros Hle Hsame. unfold settle.
  destruct (Z.eqb_spec (streak (game s)) (streak (game s'))) as [E | E].
  - rewrite Hsame. lia.
  - rewrite highScoreEffect_game.
    destruct (streak (game s') >? highScore (game s')) eqn:G; zbool; simpl; lia.
Qed.

Lemma dispatch_highScore (e : Event) (s : Session) :
  highScore (game (dispatch e s)) = highScore (game s).
Proof.
  destruct e; unfold dispatch, handleChoice, cooldownTick; simpl;
    split_cases; simplify_eq; try reflexivity.
  all: unfold battleLoaded in *; split_cases; simplify_eq; reflexivity.
Qed.

(** The streak after an event: unchanged, or what [handleChoice] made it. *)
Lemma dispatch_streak (e : Event) (s : Session) :
  streak (game (dispatch e s)) = streak (game s) \/
  (exists d, e = clickStart d /\ startEnabled (game s) = true /\
             streak (game (dispatch e s)) = 0) \/
  (exists choice p1 p2,
     e = clickChoose choice /\ chooseEnabled (game s) = true /\
     pokemon1 (game s) = Some p1 /\ pokemon2 (game s) = Some p2 /\
     cooldown (game s) <= 0 /\
     ((choice = calculateWinner p1 p2 /\
       streak (game (dispatch e s)) = streak (game s) + 1) \/
      (choice <> calculateWinner p1 p2 /\
       streak (game (dispatch e s)) = 0))).
Proof.
  destruct e as [d | choice | | o1 o2 | ]; unfold dispatch.
  - destruct (startEnabled (game s)) eqn:En; [| left; reflexivity].
    right; left. exists d. repeat split.
  - destruct (chooseEnabled (game s)) eqn:En; [| left; reflexivity].
    destruct (pokemon1 (game s)) as [p1 |] eqn:H1;
      [| left; rewrite handleChoice_blocked by auto; reflexivity].
    destruct (pokemon2 (game s)) as [p2 |] eqn:H2;
      [| left; rewrite handleChoice_blocked by auto; reflexivity].
    destruct (Z_gt_le_dec (cooldown (game s)) 0) as [Hc | Hc];
      [left; rewrite handleChoice_blocked by auto; reflexivity |].
    right; right. exists choice, p1, p2.
    rewrite (handleChoice_pass choice (game s) p1 p2 H1 H2 Hc).
    repeat split; try assumption.
    destruct (Z.eqb_spec choice (calculateWinner p1 p2)); [left | right];
      split; auto.
  - left. destruct (timers s); reflexivity.
  - left. destruct (inflight s); [reflexivity |].
    unfold battleLoaded. destruct o1, o2; reflexivity.
  - left. simpl. unfold cooldownTick. destruct (_ >? _); reflexivity.
Qed.

Lemma dispatch_cooldown (e : Event) (s : Session) :
  0 <= cooldown (game s) <= 3 -> 0 <= cooldown (game (dispatch e s)) <= 3.
Proof.
  intros H.
  destruct e; unfold dispatch, handleChoice, cooldownTick, battleLoaded; simpl;
    split_cases; simplify_eq; simpl; zbool; lia.
Qed.

Lemma dispatch_gameStatus (e : Event) (s : Session) :
  (gameStatus (game s) <> playing -> streak (game s) = 0) ->
  gameStatus (game (dispatch e s)) <> playing -> streak (game (dispatch e s)) = 0.
Proof.
  intros H.
  destruct e; unfold dispatch, handleChoice, cooldownTick, battleLoaded; simpl;
    split_cases; simplify_eq; simpl; try tauto; try congruence.
Qed.

Lemma mount_settled (saved : option Z) : settled (mount saved).
Proof.
  unfold settled, mount. rewrite highScoreEffect_game. simpl.
  destruct saved as [h |]; simpl.
  - destruct (0 >? h) eqn:E; zbool; simpl; repeat split; lia.
  - repeat split; lia.
Qed.

Lemma react_settled (e : Event) (s : Session) : settled s -> settled (react e s).
Proof.
  intros (Hs & Hc & Hg). unfold settled, react.
  rewrite settle_streak, settle_cooldown, settle_gameStatus.
  rewrite settle_highScore by (lia || apply dispatch_highScore).
  split; [| split].
  - destruct (dispatch_streak e s) as [E | [(d & _ & _ & E) | (c & p1 & p2 & _ & _ & _ & _ & _ & [[_ E] | [_ E]])]];
      rewrite E; lia.
  - apply dispatch_cooldown, Hc.
  - apply dispatch_gameStatus, Hg.
Qed.

Lemma run_settled (events : list Event) (s : Session) :
  settled s -> settled (run s events).
Proof.
  revert s. induction events as [| e events IH]; intros s Hs; simpl.
  - exact Hs.
  - apply IH, react_settled, Hs.
Qed.

Lemma startEnabled_not_playing (g : GameState) :
  startEnabled g = true -> gameStatus g <> playing.
Proof.
  unfold startEnabled, render. destruct (isLoading g); [discriminate |].
  destruct (gameStatus g); discriminate.
Qed.

(** ** Streak *)

(** C4: a call of [handleChoice] that passes the guard, with both
    candidates present: a choice equal to the winner adds exactly 1 to the
    streak, records [correct], sets the cooldown to 3 and keeps the game
    playing; any other choice sets the streak to 0, records [wrong] and
    ends the game.  And in a session run from the mounted component no
    event lowers the streak except a wrong choice. *)
Theorem submitPrediction_streak (g : GameState) (p1 p2 : Pokemon) (choice : Z)
    (saved : option Z) (events : list Event) (e : Event) :
  (pokemon1 g = Some p1 -> pokemon2 g = Some p2 -> cooldown g <= 0 ->
   (choice = calculateWinner p1 p2 ->
      streak (fst (handleChoice choice g)) = streak g + 1 /\
      result (fst (handleChoice choice g)) = Some correct /\
      cooldown (fst (handleChoice choice g)) = 3 /\
      gameStatus (fst (handleChoice choice g)) = playing) /\
   (choice <> calculateWinner p1 p2 ->
      streak (fst (handleChoice choice g)) = 0 /\
      result (fst (handleChoice choice g)) = Some wrong /\
      gameStatus (fst (handleChoice choice g)) = gameOver)) /\
  (streak (game (react e (run (mount saved) events)))
     < streak (game (run (mount saved) events)) ->
   exists c q1 q2,
     e = clickChoose c /\
     pokemon1 (game (run (mount saved) events)) = Some q1 /\
     pokemon2 (game (run (mount saved) events)) = Some q2 /\
     c <> calculateWinner q1 q2 /\
     streak (game (react e (run (mount saved) events))) = 0).
Proof.
  split.
  - intros H1 H2 Hc.
    rewrite (handleChoice_pass choice g p1 p2 H1 H2 Hc). cbn [fst].
    split.
    + intros ->. rewrite Z.eqb_refl. repeat split.
    + intros Hne. apply Z.eqb_neq in Hne. rewrite Hne. repeat split.
  - pose proof (run_settled events (mount saved) (mount_settled saved))
      as (Hs & _ & Hg).
    set (s := run (mount saved) events) in *.
    unfold react. rewrite settle_streak. intros Hlt.
    destruct (dispatch_streak e s)
      as [E | [(d & _ & En & E) | (c & q1 & q2 & -> & _ & Q1 & Q2 & _ & [[_ E] | [Hne E]])]].
    + lia.
    + apply startEnabled_not_playing, Hg in En. lia.
    + lia.
    + exists c, q1, q2. repeat split; assumption.
Qed.

Lemma submitPrediction_streak_witness :
  streak (fst (handleChoice 1 (setBattle (sample 1 300) (sample 2 250)
                                 (initialState None)))) = 1 /\
  gameStatus (fst (handleChoice 1 (setBattle (sample 1 200) (sample 2 250)
                                     (initialState None)))) = gameOver.
Proof.
  split.
  - pose proof (proj1 (submitPrediction_streak
      (setBattle (sample 1 300) (sample 2 250) (initialState None))
      (sample 1 300) (sample 2 250) 1 None [] intervalFires)
      eq_refl eq_refl ltac:(simpl; lia)) as (Hok & _).
    exact (proj1 (Hok eq_refl)).
  - pose proof (proj1 (submitPrediction_streak
      (setBattle (sample 1 200) (sample 2 250) (initialState None))
      (sample 1 200) (sample 2 250) 1 None [] intervalFires)
      eq_refl eq_refl ltac:(simpl; lia)) as (_ & Hko).
    exact (proj2 (proj2 (Hko ltac:(discriminate)))).
Defined.

(** ** Cooldown *)

(** C7: the cooldown is exactly 3 right after a correct choice; a tick
    while it is positive takes exactly 1 off, a tick at 0 changes nothing;
    and in every session run from the mounted component the cooldown is
    never negative. *)
Theorem cooldown_ticks (g : GameState) (p1 p2 : Pokemon)
    (saved : option Z) (events : list Event) :
  (pokemon1 g = Some p1 -> pokemon2 g = Some p2 -> cooldown g <= 0 ->
   cooldown (fst (handleChoice (calculateWinner p1 p2) g)) = 3) /\
  (cooldown g > 0 -> cooldown (cooldownTick g) = cooldown g - 1) /\
  (cooldown g <= 0 -> cooldownTick g = g) /\
  0 <= cooldown (game (run (mount saved) events)) <= 3.
Proof.
  repeat split.
  - intros H1 H2 Hc. rewrite (handleChoice_pass _ g p1 p2 H1 H2 Hc).
    rewrite Z.eqb_refl. reflexivity.
  - intros H. unfold cooldownTick.
    destruct (cooldown g >? 0) eqn:E; zbool; [reflexivity | lia].
  - intros H. unfold cooldownTick.
    destruct (cooldown g >? 0) eqn:E; zbool; [lia | reflexivity].
  - apply (run_settled events (mount saved) (mount_settled saved)).
  - apply (run_settled events (mount saved) (mount_settled saved)).
Qed.

Lemma cooldown_ticks_witness :
  cooldown (fst (handleChoice 1 (setBattle (sample 1 300) (sample 2 250)
                                   (initialState None)))) = 3 /\
  cooldown (cooldownTick (fst (handleChoice 1
             (setBattle (sample 1 300) (sample 2 250) (initialState None))))) = 2.
Proof.
  split.
  - exact (proj1 (cooldown_ticks
      (setBattle (sample 1 300) (sample 2 250) (initialState None))
      (sample 1 300) (sample 2 250) None []) eq_refl eq_refl ltac:(simpl; lia)).
  - exact (proj1 (proj2 (cooldown_ticks
      (fst (handleChoice 1 (setBattle (sample 1 300) (sample 2 250)
                              (initialState None))))
      (sample 1 300) (sample 2 250) None [])) ltac:(simpl; lia)).
Defined.

(** ** Starting a game *)

(** C8: [startGame d] sets the streak to 0 and the difficulty to [d],
    leaves the start screen for a playing game that shows the loading
    screen (the first [loadNewBattle] has raised [isLoading]), and leaves
    the high score as it was. *)
Theorem startSession_effect (d : Difficulty) (g : GameState) :
  streak (startGame d g) = 0 /\
  difficulty (startGame d g) = d /\
  gameStatus (startGame d g) = playing /\
  isLoading (startGame d g) = true /\
  render (startGame d g) = loadingScreen /\
  highScore (startGame d g) = highScore g.
Proof. repeat split. Qed.

(** ** High score *)

Lemma react_highScore (e : Event) (s : Session) :
  settled s ->
  highScore (game (react e s)) =
    Z.max (highScore (game s)) (streak (game (react e s))).
Proof.
  intros (Hs & _). unfold react. rewrite settle_streak.
  apply settle_highScore; [lia | apply dispatch_highScore].
Qed.

Lemma dispatch_stored (e : Event) (s : Session) :
  stored (dispatch e s) = stored s.
Proof.
  destruct e; unfold dispatch, handleChoice; simpl; split_cases; reflexivity.
Qed.

Lemma react_stored (e : Event) (s : Session) :
  settled s ->
  stored (react e s) =
    if streak (game (react e s)) >? highScore (game s)
    then Some (streak (game (react e s))) else stored s.
Proof.
  intros (Hs & _). unfold react. rewrite settle_streak. unfold settle.
  pose proof (dispatch_highScore e s) as Hh.
  pose proof (dispatch_stored e s) as Hst.
  destruct (Z.eqb_spec (streak (game s)) (streak (game (dispatch e s)))) as [E | E].
  - rewrite <- E.
    destruct (streak (game s) >? highScore (game s)) eqn:G; zbool; [lia | exact Hst].
  - unfold highScoreEffect. rewrite Hh.
    destruct (streak (game (dispatch e s)) >? highScore (game s)); [reflexivity | exact Hst].
Qed.

Lemma run_highScore (events : list Event) (s : Session) :
  settled s ->
  highScore (game (run s events)) =
    Z.max (highScore (game s)) (peakStreak s events).
Proof.
  revert s. induction events as [| e events IH]; intros s Hs; simpl.
  - destruct Hs as (Hs & _). lia.
  - rewrite IH by (apply react_settled, Hs).
    rewrite (react_highScore e s Hs).
    pose proof (react_settled e s Hs) as (Hs' & _).
    assert (streak (game (react e s)) <= peakStreak (react e s) events)
      by (destruct events; simpl; lia).
    destruct Hs as (Hs & _). lia.
Qed.

Lemma react_monotone (e : Event) (s : Session) :
  highScore (game s) <= highScore (game (react e s)).
Proof.
  unfold react, settle. pose proof (dispatch_highScore e s) as Hh.
  destruct (_ =? _); [lia |].
  rewrite highScoreEffect_game.
  destruct (streak (game (dispatch e s)) >? highScore (game (dispatch e s))) eqn:G;
    zbool; simpl; lia.
Qed.

(** The scenario of a persisted high score of 10 and a session that
    reaches a streak of 12. *)
Lemma persisted_ten_streak_twelve :
  let round := [clickChoose 1; timeoutFires;
                fetchesResolve (Some (sample 1 300)) (Some (sample 2 250))] in
  let s := run (mount (Some 10))
             (clickStart hard
              :: fetchesResolve (Some (sample 1 300)) (Some (sample 2 250))
              :: concat (replicate 12 round)) in
  streak (game s) = 12 /\ highScore (game s) = 12 /\ stored s = Some 12.
Proof. vm_compute. repeat split. Qed.

(** C6: no event lowers the high score, in any state; the high-score
    effect leaves the larger of high score and streak, and writes the
    streak to storage exactly when it exceeds the high score.  In a session
    run from the mounted component, after any sequence of events the high
    score is the larger of the value that was persisted at mount (0 when
    nothing was) and the largest streak the session went through; and an
    event rewrites the persisted value, with the new streak, exactly when
    that streak exceeds the high score. *)
Theorem bestStreak_max (saved : option Z) (events : list Event) (e : Event)
    (s : Session) :
  highScore (game s) <= highScore (game (react e s)) /\
  highScore (game (highScoreEffect s)) = Z.max (highScore (game s)) (streak (game s)) /\
  stored (highScoreEffect s) =
    (if streak (game s) >? highScore (game s) then Some (streak (game s))
     else stored s) /\
  highScore (game (run (mount saved) events)) =
    Z.max (match saved with Some h => h | None => 0 end)
          (peakStreak (mount saved) events) /\
  stored (react e (run (mount saved) events)) =
    (if streak (game (react e (run (mount saved) events)))
          >? highScore (game (run (mount saved) events))
     then Some (streak (game (react e (run (mount saved) events))))
     else stored (run (mount saved) events)).
Proof.
  pose proof (run_settled events (mount saved) (mount_settled saved)) as Hs.
  split; [| split; [| split; [| split]]].
  - apply react_monotone.
  - rewrite highScoreEffect_game.
    destruct (streak (game s) >? highScore (game s)) eqn:G; zbool; simpl; lia.
  - unfold highScoreEffect.
    destruct (streak (game s) >? highScore (game s)); reflexivity.
  - rewrite (run_highScore events _ (mount_settled saved)).
    assert (0 <= peakStreak (mount saved) events).
    { pose proof (mount_settled saved) as ((H0 & _) & _).
      destruct events; simpl; lia. }
    unfold mount at 1. rewrite highScoreEffect_game.
    destruct saved as [h |]; simpl.
    + destruct (0 >? h) eqn:G; zbool; simpl; lia.
    + lia.
  - apply react_stored, Hs.
Qed.

(** ** Fetching candidates *)

Lemma accepts_easy (ex pokemon : Pokemon) : accepts easy (Some ex) pokemon = false.
Proof. reflexivity. Qed.

(** One iteration of the loop whose cached record, if any, is rejected. *)
Lemma samplingLoop_request (env : Env) (captured : Difficulty)
    (excl : option Pokemon) (n : nat) (net : Net) :
  match pokemonCache net !! (Math_random_898 env (draws net) + 1) with
  | Some cached => accepts captured excl cached = false
  | None => True
  end ->
  samplingLoop env captured excl (S n) net =
    match axios_get env (requests net) (Math_random_898 env (draws net) + 1) with
    | None => (None, mkNet (S (draws net)) (S (requests net)) (pokemonCache net))
    | Some pokemon =>
        let net' :=
          mkNet (S (draws net)) (S (requests net))
            (<[Math_random_898 env (draws net) + 1 := pokemon]> (pokemonCache net)) in
        if accepts captured excl pokemon then (Some (Some pokemon), net')
        else samplingLoop env captured excl n net'
    end.
Proof.
  intros Hc. cbn [samplingLoop].
  unfold mbind, Async_bind, randomId, cacheGet at 1. cbn [draws requests pokemonCache].
  destruct (pokemonCache net !! (Math_random_898 env (draws net) + 1)) as [c |].
  - rewrite Hc. unfold axiosGet, cacheSet. cbn [draws requests pokemonCache].
    destruct (axios_get env (requests net) _) as [p |]; [| reflexivity].
    destruct (accepts captured excl p); reflexivity.
  - unfold axiosGet, cacheSet. cbn [draws requests pokemonCache].
    destruct (axios_get env (requests net) _) as [p |]; [| reflexivity].
    destruct (accepts captured excl p); reflexivity.
Qed.

(** One iteration of the loop whose cached record is accepted. *)
Lemma samplingLoop_cached (env : Env) (captured : Difficulty)
    (excl : option Pokemon) (n : nat) (net : Net) (cached : Pokemon) :
  pokemonCache net !! (Math_random_898 env (draws net) + 1) = Some cached ->
  accepts captured excl cached = true ->
  samplingLoop env captured excl (S n) net =
    (Some (Some cached), mkNet (S (draws net)) (requests net) (pokemonCache net)).
Proof.
  intros Hc Ha. cbn [samplingLoop].
  unfold mbind, Async_bind, randomId, cacheGet at 1. cbn [draws requests pokemonCache].
  rewrite Hc, Ha. reflexivity.
Qed.

Lemma samplingLoop_easy (env : Env) (ex : Pokemon) (n : nat) (net : Net) :
  if loopReplies env (draws net) (requests net) n
  then exists net',
         samplingLoop env easy (Some ex) n net = (Some None, net') /\
         draws net' = (draws net + n)%nat /\
         requests net' = (requests net + n)%nat
  else fst (samplingLoop env easy (Some ex) n net) = None.
Proof.
  revert net. induction n as [| n IH]; intros net.
  - simpl. exists net. repeat split; lia.
  - rewrite samplingLoop_request by (destruct (_ !! _); reflexivity).
    cbn [loopReplies].
    destruct (axios_get env (requests net) _) as [p |]; [| reflexivity].
    cbv zeta. rewrite accepts_easy.
    specialize (IH (mkNet (S (draws net)) (S (requests net))
      (<[Math_random_898 env (draws net) + 1 := p]> (pokemonCache net)))).
    cbn [draws requests] in IH.
    destruct (loopReplies env (S (draws net)) (S (requests net)) n); [| exact IH].
    destruct IH as (net' & E & Hd & Hr). exists net'. repeat split; [exact E | lia | lia].
Qed.


(** ** Loading a round *)

Lemma loadNewBattle_game (env : Env) (captured : Difficulty) (g : GameState) (net : Net) :
  fst (loadNewBattle env captured g net) =
    battleLoaded
      (fst (fetchRandomPokemon env captured None net))
      (fst (fetchRandomPokemon env captured
              (fst (fetchRandomPokemon env captured None net))
              (snd (fetchRandomPokemon env captured None net))))
      (setLoading true g).
Proof.
  unfold loadNewBattle.
  destruct (fetchRandomPokemon env captured None net) as [o1 net1]. cbn [fst snd].
  destruct (fetchRandomPokemon env captured o1 net1) as [o2 net2]. reflexivity.
Qed.

Lemma battleLoaded_null (o1 o2 : option Pokemon) (prev : GameState) :
  o1 = None \/ o2 = None -> battleLoaded o1 o2 prev = prev.
Proof. intros [-> | ->]; [| destruct o1]; reflexivity. Qed.

(** C9: when [fetchRandomPokemon] returns [null] for the first or for the
    second candidate, [loadNewBattle] leaves the candidates, the choice,
    the result, the streak, the high score, the game status, the
    difficulty (and the cooldown and achievements) as they were: the state
    it leaves is the one it found with [isLoading] raised, and the update
    after the fetches changes nothing in whatever state it is applied to. *)
Theorem loadRound_failure_keeps_round (env : Env) (captured : Difficulty)
    (g : GameState) (net : Net) (o1 o2 : option Pokemon) :
  o1 = fst (fetchRandomPokemon env captured None net) ->
  o2 = fst (fetchRandomPokemon env captured o1
              (snd (fetchRandomPokemon env captured None net))) ->
  o1 = None \/ o2 = None ->
  fst (loadNewBattle env captured g net) = setLoading true g /\
  pokemon1 (fst (loadNewBattle env captured g net)) = pokemon1 g /\
  pokemon2 (fst (loadNewBattle env captured g net)) = pokemon2 g /\
  userChoice (fst (loadNewBattle env captured g net)) = userChoice g /\
  result (fst (loadNewBattle env captured g net)) = result g /\
  streak (fst (loadNewBattle env captured g net)) = streak g /\
  highScore (fst (loadNewBattle env captured g net)) = highScore g /\
  gameStatus (fst (loadNewBattle env captured g net)) = gameStatus g /\
  difficulty (fst (loadNewBattle env captured g net)) = difficulty g /\
  cooldown (fst (loadNewBattle env captured g net)) = cooldown g /\
  achievements (fst (loadNewBattle env captured g net)) = achievements g /\
  isLoading (fst (loadNewBattle env captured g net)) = true /\
  (forall prev, battleLoaded o1 o2 prev = prev).
Proof.
  intros E1 E2 Hnull.
  assert (fst (loadNewBattle env captured g net) = setLoading true g) as ->.
  { rewrite loadNewBattle_game, <- E1, <- E2. apply battleLoaded_null, Hnull. }
  repeat split. intros prev. apply battleLoaded_null, Hnull.
Qed.

Lemma loadRound_failure_keeps_round_witness :
  fst (loadNewBattle offlineEnv easy lostRound emptyNet) = setLoading true lostRound.
Proof.
  exact (proj1 (loadRound_failure_keeps_round offlineEnv easy lostRound emptyNet
                  None None eq_refl eq_refl (or_introl eq_refl))).
Defined.

(** ** Distinctness of the two candidates *)

(** C3, at a failing input: with draws that repeat one identifier, the
    round that [startGame('easy')] loads from the start screen holds record
    25 as both candidates, and so does a round loaded under the hard
    difficulty; the record passed as [excludePokemon] is not excluded. *)
Theorem repeated_identifier_round :
  gameStatus repeatedRound = playing /\
  difficulty repeatedRound = easy /\
  pokemon1 repeatedRound = Some (sample 25 320) /\
  pokemon2 repeatedRound = Some (sample 25 320) /\
  id (sample 25 320) = 25 /\
  ~ (forall p1 p2 : Pokemon,
       pokemon1 repeatedRound = Some p1 -> pokemon2 repeatedRound = Some p2 ->
       id p1 <> id p2) /\
  pokemon1 (fst (loadNewBattle repeatingEnv hard (initialState None) emptyNet))
    = Some (sample 25 320) /\
  pokemon2 (fst (loadNewBattle repeatingEnv hard (initialState None) emptyNet))
    = Some (sample 25 320).
Proof.
  do 5 (split; [reflexivity |]).
  split; [| split; vm_compute; reflexivity].
  intros H. apply (H (sample 25 320) (sample 25 320)); reflexivity.
Qed.

(** ** The hard setting *)

(** A record returned from inside the loop on the hard setting is within
    50 points of the excluded one. *)
Lemma samplingLoop_hard_similar (env : Env) (ex : Pokemon) (n : nat) (net net' : Net)
    (pokemon : Pokemon) :
  samplingLoop env hard (Some ex) n net = (Some (Some pokemon), net') ->
  Z.abs (calculateTotalStats pokemon - calculateTotalStats ex) <= 50.
Proof.
  revert net. induction n as [| n IH]; intros net H; [discriminate |].
  destruct (pokemonCache net !! (Math_random_898 env (draws net) + 1)) as [c |] eqn:Hc.
  - destruct (accepts hard (Some ex) c) eqn:Ha.
    + rewrite (samplingLoop_cached env hard (Some ex) n net c Hc Ha) in H.
      simplify_eq. unfold accepts, isSimilarStats in Ha. simpl in Ha. zbool. exact Ha.
    + rewrite samplingLoop_request in H by (rewrite Hc; exact Ha).
      destruct (axios_get env (requests net) _) as [p |]; [| discriminate].
      cbv zeta in H. destruct (accepts hard (Some ex) p) eqn:Hp.
      * simplify_eq. unfold accepts, isSimilarStats in Hp. simpl in Hp. zbool. exact Hp.
      * exact (IH _ H).
  - rewrite samplingLoop_request in H by (rewrite Hc; exact I).
    destruct (axios_get env (requests net) _) as [p |]; [| discriminate].
    cbv zeta in H. destruct (accepts hard (Some ex) p) eqn:Hp.
    + simplify_eq. unfold accepts, isSimilarStats in Hp. simpl in Hp. zbool. exact Hp.
    + exact (IH _ H).
Qed.

(** When the loop runs out, what [fetchRandomPokemon] returns is the answer
    to one more request, for one more drawn identifier. *)
Lemma fetchRandomPokemon_exhausted (env : Env) (captured : Difficulty)
    (excl : option Pokemon) (net net' : Net) :
  samplingLoop env captured excl maxAttempts net = (Some None, net') ->
  fst (fetchRandomPokemon env captured excl net) =
    axios_get env (requests net') (Math_random_898 env (draws net') + 1).
Proof.
  intros H. unfold fetchRandomPokemon, catchNull, mbind, Async_bind.
  rewrite H. reflexivity.
Qed.

(** C5, at a failing input: on the hard setting, with a first candidate
    of total 300 and five sampled records of total 500, the loop accepts
    none of its five samples, the fifth being record 5; what is returned is
    record 6 (total 900), fetched by a sixth request for a sixth drawn
    identifier, not the last record the loop sampled. *)
Theorem challenging_fallback_fetches_again :
  fst (samplingLoop countingEnv hard (Some (sample 100 300)) 5 emptyNet) = Some None /\
  draws (snd (samplingLoop countingEnv hard (Some (sample 100 300)) 5 emptyNet)) = 5%nat /\
  pokemonCache (snd (samplingLoop countingEnv hard (Some (sample 100 300)) 5 emptyNet))
    !! 5 = Some (sample 5 500) /\
  fst (fetchRandomPokemon countingEnv hard (Some (sample 100 300)) emptyNet)
    = Some (sample 6 900) /\
  requests (snd (fetchRandomPokemon countingEnv hard (Some (sample 100 300)) emptyNet))
    = 6%nat.
Proof. repeat split; vm_compute; reflexivity. Qed.

(** The same fallback loses the round when its extra request fails, with
    five sampled records at hand. *)
Lemma challenging_fallback_can_fail :
  fst (fetchRandomPokemon flakyEnv hard (Some (sample 100 300)) emptyNet) = None /\
  pokemonCache (snd (fetchRandomPokemon flakyEnv hard (Some (sample 100 300)) emptyNet))
    !! 5 = Some (sample 5 500).
Proof. split; vm_compute; reflexivity. Qed.

(** ** Totals *)

Lemma fold_left_total (l : list StatEntry) (a : Z) :
  fold_left (fun sum stat => sum + base_stat stat) l a =
    a + foldr (fun stat sum => base_stat stat + sum) 0 l.
Proof.
  revert a. induction l as [| x l IH]; intros a; simpl; [lia |].
  rewrite IH. lia.
Qed.

Lemma foldr_total_perm (l l' : list StatEntry) :
  l ≡ₚ l' ->
  foldr (fun stat sum => base_stat stat + sum) 0 l =
    foldr (fun stat sum => base_stat stat + sum) 0 l'.
Proof. induction 1; simpl; lia. Qed.

(** X1: the total of a record does not depend on the order of its stats,
    and the total over two lists of stats put together is the sum of the
    two totals. *)
Theorem calculateTotalStats_order (p q : Pokemon) (l1 l2 : list StatEntry) :
  (stats p ≡ₚ stats q -> calculateTotalStats p = calculateTotalStats q) /\
  (stats p = l1 ++ l2 ->
   calculateTotalStats p =
     calculateTotalStats (mkPokemon (id p) (name p) (front_default p) l1 (types p)) +
     calculateTotalStats (mkPokemon (id p) (name p) (front_default p) l2 (types p))).
Proof.
  unfold calculateTotalStats. split.
  - intros H. rewrite !fold_left_total, (foldr_total_perm _ _ H). reflexivity.
  - intros ->. cbn [stats]. rewrite fold_left_app, !fold_left_total. lia.
Qed.

Lemma calculateTotalStats_order_witness :
  calculateTotalStats
    (mkPokemon 1 "a" "s" [mkStat 45 "hp"; mkStat 49 "attack"] []) =
  calculateTotalStats
    (mkPokemon 1 "a" "s" [mkStat 49 "attack"; mkStat 45 "hp"] []).
Proof.
  apply (proj1 (calculateTotalStats_order
    (mkPokemon 1 "a" "s" [mkStat 45 "hp"; mkStat 49 "attack"] [])
    (mkPokemon 1 "a" "s" [mkStat 49 "attack"; mkStat 45 "hp"] []) [] [])).
  apply perm_swap.
Defined.

(** X2: when no base stat is negative, the total is not negative and no
    single stat exceeds it. *)
Theorem calculateTotalStats_bounds (p : Pokemon) :
  Forall (fun stat => 0 <= base_stat stat) (stats p) ->
  0 <= calculateTotalStats p /\
  Forall (fun stat => base_stat stat <= calculateTotalStats p) (stats p).
Proof.
  unfold calculateTotalStats. rewrite fold_left_total.
  generalize (stats p). intros l H.
  assert (Hsum : forall l, Forall (fun stat => 0 <= base_stat stat) l ->
            0 <= foldr (fun stat sum => base_stat stat + sum) 0 l).
  { clear. induction 1; simpl; lia. }
  split; [specialize (Hsum l H); lia |].
  induction H as [| x l Hx Hl IH]; constructor; simpl.
  - specialize (Hsum l Hl). lia.
  - eapply Forall_impl; [exact IH |]. simpl. intros y Hy. lia.
Qed.

Lemma calculateTotalStats_bounds_witness :
  0 <= calculateTotalStats (sample 1 320).
Proof.
  apply (calculateTotalStats_bounds (sample 1 320)).
  repeat constructor. simpl. lia.
Defined.

(** X3: similarity is the totals lying within 50 of each other; it holds
    of a record and itself and does not depend on the order of the two
    records. *)
Theorem isSimilarStats_relation (p1 p2 : Pokemon) :
  (isSimilarStats p1 p2 = true <->
     -50 <= calculateTotalStats p1 - calculateTotalStats p2 <= 50) /\
  isSimilarStats p1 p1 = true /\
  isSimilarStats p1 p2 = isSimilarStats p2 p1.
Proof.
  unfold isSimilarStats; cbv zeta. split; [| split].
  - split; intros Hs; [zbool | apply Z.leb_le]; lia.
  - apply Z.leb_le. lia.
  - destruct (Z.leb_spec (Z.abs (calculateTotalStats p1 - calculateTotalStats p2)) 50);
      symmetry; [apply Z.leb_le | apply Z.leb_gt]; lia.
Qed.

(** X4: with different totals the winner changes when the two candidates
    change places; with equal totals it is candidate 1 in either order. *)
Theorem calculateWinner_swap (p1 p2 : Pokemon) :
  (calculateTotalStats p1 <> calculateTotalStats p2 ->
   calculateWinner p1 p2 + calculateWinner p2 p1 = 3) /\
  (calculateTotalStats p1 = calculateTotalStats p2 ->
   calculateWinner p1 p2 = 1 /\ calculateWinner p2 p1 = 1).
Proof.
  rewrite !calculateWinner_cases.
  split; intros Htot; repeat case_decide; lia.
Qed.

Lemma calculateWinner_swap_witness :
  calculateWinner (sample 1 300) (sample 2 250)
    + calculateWinner (sample 2 250) (sample 1 300) = 3 /\
  calculateWinner (sample 2 280) (sample 1 280) = 1.
Proof.
  split.
  - apply (proj1 (calculateWinner_swap (sample 1 300) (sample 2 250))).
    vm_compute. discriminate.
  - apply (proj2 (calculateWinner_swap (sample 1 280) (sample 2 280))).
    reflexivity.
Defined.

(** ** More on [handleChoice] *)

(** X5: in a state that passes the guard, exactly one of the two choices
    the cards offer is judged correct, and a choice that is neither 1 nor 2
    is judged wrong and ends the game. *)
Theorem handleChoice_one_correct (g : GameState) (p1 p2 : Pokemon) (choice : Z) :
  pokemon1 g = Some p1 -> pokemon2 g = Some p2 -> cooldown g <= 0 ->
  (result (fst (handleChoice 1 g)) = Some correct /\
   result (fst (handleChoice 2 g)) = Some wrong \/
   result (fst (handleChoice 1 g)) = Some wrong /\
   result (fst (handleChoice 2 g)) = Some correct) /\
  (choice <> 1 -> choice <> 2 ->
   result (fst (handleChoice choice g)) = Some wrong /\
   gameStatus (fst (handleChoice choice g)) = gameOver /\
   streak (fst (handleChoice choice g)) = 0).
Proof.
  intros H1 H2 Hc.
  rewrite !(handleChoice_pass _ g p1 p2 H1 H2 Hc). cbn [fst result setChoice].
  rewrite calculateWinner_cases.
  destruct (decide (calculateTotalStats p1 >= calculateTotalStats p2)).
  - split; [left; split; reflexivity |].
    intros N1 N2. apply Z.eqb_neq in N1. rewrite N1. repeat split.
  - split; [right; split; reflexivity |].
    intros N1 N2. apply Z.eqb_neq in N2. rewrite N2. repeat split.
Qed.

Lemma handleChoice_one_correct_witness :
  result (fst (handleChoice 7 (setBattle (sample 1 300) (sample 2 250)
                                 (initialState None)))) = Some wrong.
Proof.
  apply (proj2 (handleChoice_one_correct
    (setBattle (sample 1 300) (sample 2 250) (initialState None))
    (sample 1 300) (sample 2 250) 7 eq_refl eq_refl ltac:(simpl; lia)));
    discriminate.
Defined.

(** X6: [handleChoice] never changes the candidates, the high score, the
    loading flag, the difficulty or the achievements, and it arms the
    timeout for the next round exactly when it records a correct result
    in the state it returns. *)
Theorem handleChoice_frame (choice : Z) (g : GameState) :
  pokemon1 (fst (handleChoice choice g)) = pokemon1 g /\
  pokemon2 (fst (handleChoice choice g)) = pokemon2 g /\
  highScore (fst (handleChoice choice g)) = highScore g /\
  isLoading (fst (handleChoice choice g)) = isLoading g /\
  difficulty (fst (handleChoice choice g)) = difficulty g /\
  achievements (fst (handleChoice choice g)) = achievements g /\
  (snd (handleChoice choice g) = true ->
   result (fst (handleChoice choice g)) = Some correct /\
   cooldown (fst (handleChoice choice g)) = 3 /\
   streak (fst (handleChoice choice g)) = streak g + 1) /\
  (snd (handleChoice choice g) = false ->
   fst (handleChoice choice g) = g \/
   result (fst (handleChoice choice g)) = Some wrong).
Proof.
  assert (Hnoop : forall x : GameState * bool, x = (g, false) ->
            pokemon1 (fst x) = pokemon1 g /\ pokemon2 (fst x) = pokemon2 g /\
            highScore (fst x) = highScore g /\ isLoading (fst x) = isLoading g /\
            difficulty (fst x) = difficulty g /\
            achievements (fst x) = achievements g /\
            (snd x = true ->
             result (fst x) = Some correct /\ cooldown (fst x) = 3 /\
             streak (fst x) = streak g + 1) /\
            (snd x = false -> fst x = g \/ result (fst x) = Some wrong)).
  { intros x ->. cbn [fst snd]. repeat split; discriminate || auto. }
  unfold handleChoice.
  destruct (pokemon1 g) as [p1 |] eqn:H1; [| apply Hnoop; reflexivity].
  destruct (pokemon2 g) as [p2 |] eqn:H2; [| apply Hnoop; reflexivity].
  destruct (cooldown g >? 0); [apply Hnoop; reflexivity |].
  destruct (choice =? calculateWinner p1 p2); cbn;
    repeat split; discriminate || auto.
Qed.

(** ** Coherence of the session *)

Lemma mount_coherent (saved : option Z) : coherent (mount saved).
Proof.
  unfold coherent, mount, highScoreEffect.
  destruct saved as [h |]; cbn.
  - destruct (0 >? h) eqn:E; cbn; zbool;
      repeat split; intros; try discriminate; try lia; try reflexivity.
  - repeat split; intros; try discriminate; try lia; try reflexivity.
Qed.

Lemma highScoreEffect_coherent (s : Session) :
  coherent s -> coherent (highScoreEffect s).
Proof.
  unfold highScoreEffect. destruct (_ >? _); [| trivial].
  unfold coherent. cbn. intuition.
Qed.

Lemma dispatch_coherent (e : Event) (s : Session) :
  coherent s -> coherent (dispatch e s).
Proof.
  destruct s as [g st tm fl]. unfold coherent. cbn [game timers inflight stored].
  intros Hs. pose proof Hs as (I1 & I2 & I3 & I4 & I5 & I6 & I7 & I8 & I9 & I10 & I11).
  destruct e as [d | choice | | o1 o2 | ]; unfold dispatch; cbn [game timers inflight stored].
  - destruct (startEnabled g) eqn:En; cbn [game timers inflight stored];
      [| exact Hs].
    unfold startEnabled, render in En.
    destruct (isLoading g) eqn:L; [discriminate |].
    assert (gameStatus g <> playing) as G by (destruct (gameStatus g); congruence).
    assert (tm = 0%nat) as -> by (destruct tm as [| [|]]; [reflexivity | tauto | lia]).
    assert (fl = 0%nat) as -> by (destruct (gameStatus g); tauto).
    cbn. repeat split; intros; try discriminate; try lia; try tauto.
  - destruct (chooseEnabled g) eqn:En; cbn [game timers inflight stored];
      [| exact Hs].
    unfold chooseEnabled, render in En.
    destruct (isLoading g) eqn:L; [discriminate |].
    destruct (gameStatus g) eqn:G; try discriminate.
    destruct (pokemon1 g) as [p1 |] eqn:P1; [| discriminate].
    destruct (pokemon2 g) as [p2 |] eqn:P2; [| discriminate].
    destruct (userChoice g) eqn:U; [discriminate |].
    assert (result g = None) as R by tauto.
    assert (cooldown g <= 0) as C
      by (destruct (Z_gt_le_dec (cooldown g) 0) as [Hc | Hc]; [| exact Hc];
          assert (0 < cooldown g) as Hc' by lia; apply I6 in Hc'; destruct Hc'; congruence).
    assert (tm = 0%nat) as ->
      by (destruct tm as [| [|]]; [reflexivity | | lia];
          destruct I3 as (_ & I3 & _); [reflexivity | congruence]).
    assert (fl = 0%nat) as ->
      by (destruct fl as [| [|]]; [reflexivity | | lia];
          destruct I2 as (I2 & _); [reflexivity | congruence]).
    rewrite (handleChoice_pass choice g p1 p2 P1 P2 C).
    destruct (choice =? calculateWinner p1 p2); cbn; rewrite ?P1, ?P2, ?L;
      repeat split; intros; try discriminate; try lia; try tauto; try congruence.
  - destruct tm as [| tm]; cbn [game timers inflight stored];
      [exact Hs |].
    assert (tm = 0%nat) as -> by lia. assert (fl = 0%nat) as -> by lia.
    destruct I3 as (L & R & G); [reflexivity |].
    cbn. repeat split; intros; try discriminate; try lia; try tauto; try congruence.
  - destruct fl as [| fl]; cbn [game timers inflight stored];
      [exact Hs |].
    assert (fl = 0%nat) as -> by lia. assert (tm = 0%nat) as -> by lia.
    destruct I2 as (L & G); [reflexivity |].
    unfold battleLoaded. destruct o1 as [p1 |], o2 as [p2 |]; cbn;
      repeat split; intros; try discriminate; try lia; try tauto; try congruence.
  - unfold withGame, cooldownTick. cbn [game timers inflight stored].
    destruct (cooldown g >? 0) eqn:C; cbn; [| exact Hs].
    zbool. repeat split; intros; try discriminate; try lia; try tauto;
      try (apply I6; lia); try congruence.
Qed.

Lemma react_coherent (e : Event) (s : Session) : coherent s -> coherent (react e s).
Proof.
  intros Hs. unfold react, settle.
  destruct (_ =? _); [| apply highScoreEffect_coherent];
    apply dispatch_coherent, Hs.
Qed.

Lemma run_coherent (events : list Event) (s : Session) :
  coherent s -> coherent (run s events).
Proof.
  revert s. induction events as [| e events IH]; intros s Hs; simpl.
  - exact Hs.
  - apply IH, react_coherent, Hs.
Qed.

Lemma render_gameOver (g : GameState) :
  render g = gameOverScreen <-> isLoading g = false /\ gameStatus g = gameOver.
Proof.
  unfold render. destruct (isLoading g), (gameStatus g); intuition discriminate.
Qed.

Lemma render_battle (g : GameState) :
  render g = battleScreen <-> isLoading g = false /\ gameStatus g = playing.
Proof.
  unfold render. destruct (isLoading g), (gameStatus g); intuition discriminate.
Qed.

Lemma settle_same (s : Session) : settle s s = s.
Proof. unfold settle. rewrite Z.eqb_refl. reflexivity. Qed.

(** X7: whenever the game-over screen is shown, the streak it prints as
    the final streak is 0, the recorded result is the wrong one, the
    cooldown is not running and no timeout or load is pending. *)
Theorem gameOver_screen_state (saved : option Z) (events : list Event) :
  render (game (run (mount saved) events)) = gameOverScreen ->
  streak (game (run (mount saved) events)) = 0 /\
  result (game (run (mount saved) events)) = Some wrong /\
  cooldown (game (run (mount saved) events)) = 0 /\
  timers (run (mount saved) events) = 0%nat /\
  inflight (run (mount saved) events) = 0%nat.
Proof.
  pose proof (run_settled events _ (mount_settled saved)) as (_ & Hc & Hz).
  pose proof (run_coherent events _ (mount_coherent saved))
    as (I1 & _ & I3 & _ & _ & I6 & I7 & _).
  set (s := run (mount saved) events) in *.
  intros Hr. apply render_gameOver in Hr as (L & G).
  destruct (I7 G) as (R & _ & F).
  repeat split; try assumption.
  - apply Hz. congruence.
  - destruct (Z_lt_le_dec 0 (cooldown (game s))) as [C | C]; [| lia].
    apply I6 in C as (_ & C). congruence.
  - destruct (timers s) as [| [|]]; [reflexivity | | lia].
    destruct I3 as (_ & _ & I3); [reflexivity | congruence].
Qed.

Lemma gameOver_screen_state_witness :
  streak (game (run (mount (Some 4))
    [clickStart easy;
     fetchesResolve (Some (sample 1 300)) (Some (sample 2 250));
     clickChoose 1; timeoutFires;
     fetchesResolve (Some (sample 3 200)) (Some (sample 4 250));
     clickChoose 1])) = 0.
Proof.
  apply (gameOver_screen_state (Some 4)
    [clickStart easy;
     fetchesResolve (Some (sample 1 300)) (Some (sample 2 250));
     clickChoose 1; timeoutFires;
     fetchesResolve (Some (sample 3 200)) (Some (sample 4 250));
     clickChoose 1]).
  reflexivity.
Defined.

(** X8: whenever the battle screen is shown, both candidates are there,
    so the two cards are rendered, and the recorded result is not the
    wrong one: its game-over banner never appears on that screen. *)
Theorem battle_screen_state (saved : option Z) (events : list Event) :
  render (game (run (mount saved) events)) = battleScreen ->
  pokemon1 (game (run (mount saved) events)) <> None /\
  pokemon2 (game (run (mount saved) events)) <> None /\
  result (game (run (mount saved) events)) <> Some wrong /\
  inflight (run (mount saved) events) = 0%nat.
Proof.
  pose proof (run_coherent events _ (mount_coherent saved))
    as (I1 & I2 & _ & I4 & _ & _ & _ & _ & I9 & _).
  set (s := run (mount saved) events) in *.
  intros Hr. apply render_battle in Hr as (L & G).
  destruct (I9 G L) as (P & R).
  repeat split; try assumption.
  - intros P2. apply P, I4, P2.
  - destruct (inflight s) as [| [|]]; [reflexivity | | lia].
    destruct I2 as (I2 & _); [reflexivity | congruence].
Qed.

Lemma battle_screen_state_witness :
  inflight (run (mount None)
    [clickStart hard;
     fetchesResolve (Some (sample 1 300)) (Some (sample 2 250));
     clickChoose 1]) = 0%nat.
Proof.
  apply (battle_screen_state None
    [clickStart hard;
     fetchesResolve (Some (sample 1 300)) (Some (sample 2 250));
     clickChoose 1]).
  reflexivity.
Defined.

(** X9: at any time at most one round load is pending, as an armed
    timeout or as a running [loadNewBattle]; while one is running the
    loading screen is shown, and a timeout is armed only on top of a
    correct result. *)
Theorem one_pending_load (saved : option Z) (events : list Event) :
  (timers (run (mount saved) events) + inflight (run (mount saved) events) <= 1)%nat /\
  (inflight (run (mount saved) events) = 1%nat ->
   render (game (run (mount saved) events)) = loadingScreen) /\
  (timers (run (mount saved) events) = 1%nat ->
   result (game (run (mount saved) events)) = Some correct /\
   render (game (run (mount saved) events)) = battleScreen).
Proof.
  pose proof (run_coherent events _ (mount_coherent saved))
    as (I1 & I2 & I3 & _).
  set (s := run (mount saved) events) in *.
  split; [exact I1 |]. split.
  - intros F. destruct (I2 F) as (L & _). unfold render. rewrite L. reflexivity.
  - intros T. destruct (I3 T) as (L & R & G). split; [exact R |].
    apply render_battle. split; assumption.
Qed.

Lemma one_pending_load_witness :
  render (game (run (mount None) [clickStart easy])) = loadingScreen /\
  result (game (run (mount None)
    [clickStart easy;
     fetchesResolve (Some (sample 1 300)) (Some (sample 2 250));
     clickChoose 1])) = Some correct.
Proof.
  split.
  - apply (proj1 (proj2 (one_pending_load None [clickStart easy]))). reflexivity.
  - apply (proj2 (proj2 (one_pending_load None
      [clickStart easy;
       fetchesResolve (Some (sample 1 300)) (Some (sample 2 250));
       clickChoose 1]))). reflexivity.
Defined.

(** X10: the spec's reading of the round state holds in every session:
    a choice is recorded exactly when a result is, the two candidates are
    there together or not at all, and while the cooldown runs the result
    is the correct one and the game is being played. *)
Theorem round_fields_agree (saved : option Z) (events : list Event) :
  (userChoice (game (run (mount saved) events)) = None <->
   result (game (run (mount saved) events)) = None) /\
  (pokemon1 (game (run (mount saved) events)) = None <->
   pokemon2 (game (run (mount saved) events)) = None) /\
  (0 < cooldown (game (run (mount saved) events)) ->
   result (game (run (mount saved) events)) = Some correct /\
   gameStatus (game (run (mount saved) events)) = playing) /\
  0 <= streak (game (run (mount saved) events))
    <= highScore (game (run (mount saved) events)).
Proof.
  pose proof (run_settled events _ (mount_settled saved)) as (Hs & _).
  pose proof (run_coherent events _ (mount_coherent saved))
    as (_ & _ & _ & I4 & I5 & I6 & _).
  repeat split; try tauto; lia.
Qed.

Lemma round_fields_agree_witness :
  result (game (run (mount None)
    [clickStart easy;
     fetchesResolve (Some (sample 1 300)) (Some (sample 2 250));
     clickChoose 1; intervalFires])) = Some correct.
Proof.
  apply (proj1 (proj2 (proj2 (round_fields_agree None
    [clickStart easy;
     fetchesResolve (Some (sample 1 300)) (Some (sample 2 250));
     clickChoose 1; intervalFires])))).
  vm_compute. reflexivity.
Defined.

(** X11: the value in storage and the high score never part: in every
    session the high score is the stored value (0 when nothing is stored),
    so mounting the component again on what a session left in storage
    brings back that session's high score. *)
Theorem highScore_persisted (saved : option Z) (events : list Event) :
  highScore (game (run (mount saved) events)) =
    default 0 (stored (run (mount saved) events)) /\
  highScore (game (mount (stored (run (mount saved) events)))) =
    highScore (game (run (mount saved) events)).
Proof.
  pose proof (run_settled events _ (mount_settled saved)) as (Hs & _).
  pose proof (run_coherent events _ (mount_coherent saved))
    as (_ & _ & _ & _ & _ & _ & _ & _ & _ & _ & I11).
  set (s := run (mount saved) events) in *.
  split; [exact I11 |].
  unfold mount. rewrite highScoreEffect_game. cbn [game initialState streak highScore].
  rewrite I11. destruct (stored s) as [h |]; cbn in I11 |- *.
  - destruct (0 >? h) eqn:E; zbool; [lia | reflexivity].
  - reflexivity.
Qed.

(** X12: no event ever writes the achievements: they are the same after
    any event in any state, and empty in every session. *)
Theorem achievements_never_awarded (s : Session) (e : Event)
    (saved : option Z) (events : list Event) :
  achievements (game (react e s)) = achievements (game s) /\
  achievements (game (run (mount saved) events)) = [].
Proof.
  split.
  - unfold react, settle. destruct (_ =? _).
    + destruct e; unfold dispatch, handleChoice, cooldownTick, battleLoaded; simpl;
        split_cases; simplify_eq; reflexivity.
    + rewrite highScoreEffect_game.
      destruct (_ >? _); cbn [achievements setHighScore];
        destruct e; unfold dispatch, handleChoice, cooldownTick, battleLoaded; simpl;
        split_cases; simplify_eq; reflexivity.
  - apply (run_coherent events _ (mount_coherent saved)).
Qed.

Lemma gameOver_idle (saved : option Z) (events : list Event) :
  render (game (run (mount saved) events)) = gameOverScreen ->
  cooldown (game (run (mount saved) events)) = 0 /\
  timers (run (mount saved) events) = 0%nat /\
  inflight (run (mount saved) events) = 0%nat.
Proof.
  pose proof (run_settled events _ (mount_settled saved)) as (_ & Hc & _).
  pose proof (run_coherent events _ (mount_coherent saved))
    as (I1 & _ & I3 & _ & _ & I6 & I7 & _).
  set (s := run (mount saved) events) in *.
  intros Hr. apply render_gameOver in Hr as (L & G).
  destruct (I7 G) as (R & _ & F).
  repeat split; try assumption.
  - destruct (Z_lt_le_dec 0 (cooldown (game s))) as [C | C]; [| lia].
    apply I6 in C as (_ & C). congruence.
  - destruct (timers s) as [| [|]]; [reflexivity | | lia].
    destruct I3 as (_ & _ & I3); [reflexivity | congruence].
Qed.

(** ** Stalls and terminal states *)

Lemma sameRound_refl (g : GameState) : sameRound g g.
Proof. repeat split. Qed.

Lemma sameRound_trans (g1 g2 g3 : GameState) :
  sameRound g1 g2 -> sameRound g2 g3 -> sameRound g1 g3.
Proof. unfold sameRound. intuition congruence. Qed.

Lemma sameRound_tick (g : GameState) : sameRound g (cooldownTick g).
Proof. unfold cooldownTick. destruct (_ >? _); repeat split. Qed.

Lemma react_stalled (e : Event) (s : Session) :
  isLoading (game s) = true -> timers s = 0%nat -> inflight s = 0%nat ->
  sameRound (game s) (game (react e s)) /\
  timers (react e s) = 0%nat /\ inflight (react e s) = 0%nat /\
  stored (react e s) = stored s.
Proof.
  intros L T F.
  assert (dispatch e s = s \/ dispatch e s = withGame (cooldownTick (game s)) s) as [E | E].
  { destruct e; unfold dispatch, startEnabled, chooseEnabled, render;
      rewrite ?L, ?T, ?F; auto. }
  - unfold react. rewrite E, settle_same. repeat split; assumption.
  - unfold react, settle. rewrite E. cbn [game withGame].
    destruct (sameRound_tick (game s)) as (? & ? & ? & ? & Hst & ?).
    rewrite Hst, Z.eqb_refl. cbn. split; [apply sameRound_tick | auto].
Qed.

Lemma run_stalled (events : list Event) (s : Session) :
  isLoading (game s) = true -> timers s = 0%nat -> inflight s = 0%nat ->
  sameRound (game s) (game (run s events)) /\ stored (run s events) = stored s.
Proof.
  revert s. induction events as [| e events IH]; intros s L T F; simpl.
  - split; [apply sameRound_refl | reflexivity].
  - destruct (react_stalled e s L T F) as (Hsame & T' & F' & St).
    destruct (IH (react e s)) as (Hsame' & St'); try assumption.
    + destruct Hsame as (_ & _ & _ & _ & _ & _ & L' & _). congruence.
    + split; [eapply sameRound_trans; eassumption | congruence].
Qed.

(** X13: when the fetches of a running [loadNewBattle] come back with a
    missing record, the session is stuck for good: whatever happens
    afterwards, the loading screen stays, and candidates, choice, result,
    streak, high score, game status and difficulty stay as they were (only
    a running cooldown still counts down); the stored high score stays
    too. *)
Theorem failed_load_stalls (saved : option Z) (events later : list Event)
    (o1 o2 : option Pokemon) :
  inflight (run (mount saved) events) = 1%nat ->
  o1 = None \/ o2 = None ->
  render (game (run (run (mount saved) events) (fetchesResolve o1 o2 :: later)))
    = loadingScreen /\
  sameRound (game (run (mount saved) events))
    (game (run (run (mount saved) events) (fetchesResolve o1 o2 :: later))) /\
  stored (run (run (mount saved) events) (fetchesResolve o1 o2 :: later))
    = stored (run (mount saved) events).
Proof.
  pose proof (run_coherent events _ (mount_coherent saved)) as (I1 & I2 & _).
  set (s := run (mount saved) events) in *.
  intros F Hnull. destruct (I2 F) as (L & _).
  assert (react (fetchesResolve o1 o2) s =
          mkSession (game s) (stored s) 0 0) as E.
  { unfold react, dispatch. rewrite F, (battleLoaded_null o1 o2 _ Hnull).
    unfold settle. cbn [game]. rewrite Z.eqb_refl. f_equal. lia. }
  cbn [run]. rewrite E.
  destruct (run_stalled later (mkSession (game s) (stored s) 0 0) L eq_refl eq_refl)
    as (Hsame & St).
  cbn [game stored] in Hsame, St.
  split; [| split; assumption].
  destruct Hsame as (_ & _ & _ & _ & _ & _ & L' & _).
  unfold render. rewrite L', L. reflexivity.
Qed.

Lemma failed_load_stalls_witness :
  render (game (run (run (mount None) [clickStart easy])
    [fetchesResolve (Some (sample 1 300)) None;
     clickStart hard; clickChoose 1; timeoutFires;
     fetchesResolve (Some (sample 1 300)) (Some (sample 2 250))])) = loadingScreen.
Proof.
  apply (failed_load_stalls None [clickStart easy]
    [clickStart hard; clickChoose 1; timeoutFires;
     fetchesResolve (Some (sample 1 300)) (Some (sample 2 250))]
    (Some (sample 1 300)) None).
  - reflexivity.
  - right. reflexivity.
Defined.

(** X14: on the game-over screen only a click on a difficulty button does
    anything: every other event leaves the whole session as it is. *)
Theorem gameOver_waits_for_start (saved : option Z) (events : list Event) (e : Event) :
  render (game (run (mount saved) events)) = gameOverScreen ->
  (forall d, e <> clickStart d) ->
  react e (run (mount saved) events) = run (mount saved) events.
Proof.
  intros Hr Hne.
  pose proof (run_settled events _ (mount_settled saved)) as (_ & Hc & _).
  destruct (gameOver_idle saved events Hr) as (C & T & F).
  set (s := run (mount saved) events) in *.
  assert (dispatch e s = s) as E.
  { destruct e as [d | choice | | o1 o2 | ]; unfold dispatch.
    - exfalso. apply (Hne d). reflexivity.
    - unfold chooseEnabled. rewrite Hr. reflexivity.
    - rewrite T. reflexivity.
    - rewrite F. reflexivity.
    - unfold cooldownTick. rewrite C. cbn. destruct s; reflexivity. }
  unfold react. rewrite E. apply settle_same.
Qed.

Lemma gameOver_waits_for_start_witness :
  react (clickChoose 2) (run (mount None)
    [clickStart easy;
     fetchesResolve (Some (sample 1 200)) (Some (sample 2 250));
     clickChoose 1]) =
  run (mount None)
    [clickStart easy;
     fetchesResolve (Some (sample 1 200)) (Some (sample 2 250));
     clickChoose 1].
Proof.
  apply (gameOver_waits_for_start None
    [clickStart easy;
     fetchesResolve (Some (sample 1 200)) (Some (sample 2 250));
     clickChoose 1] (clickChoose 2)).
  - reflexivity.
  - intros d. discriminate.
Defined.

(** X15: nothing ever sets the game status back to [start]: an event
    yields the start status only from the start status, so once a game has
    been started the start screen (and with it the pre-fetch) never comes
    back. *)
Theorem start_screen_never_returns (s : Session) (e : Event) (events : list Event) :
  (gameStatus (game (react e s)) = start -> gameStatus (game s) = start) /\
  (gameStatus (game s) <> start -> gameStatus (game (run s events)) <> start).
Proof.
  assert (Hstep : forall e s, gameStatus (game (react e s)) = start ->
                    gameStatus (game s) = start).
  { clear. intros e s. unfold react. rewrite settle_gameStatus.
    destruct e; unfold dispatch, handleChoice, cooldownTick, battleLoaded; simpl;
      split_cases; simplify_eq; simpl; intros; congruence. }
  split; [apply Hstep |].
  revert s. induction events as [| e' events IH]; intros s Hs; simpl; [exact Hs |].
  apply IH. intros H. apply Hs, (Hstep e' s H).
Qed.

Lemma start_screen_never_returns_witness :
  gameStatus (game (run (mkSession lostRound None 0 0)
                      [clickStart hard; fetchesResolve None None])) = playing /\
  gameStatus (game (run (mkSession lostRound None 0 0)
                      [clickStart hard; fetchesResolve None None])) <> start.
Proof.
  split; [reflexivity |].
  apply (proj2 (start_screen_never_returns (mkSession lostRound None 0 0)
                  intervalFires [clickStart hard; fetchesResolve None None])).
  discriminate.
Defined.

Lemma handleChoice_difficulty (choice : Z) (g : GameState) :
  difficulty (fst (handleChoice choice g)) = difficulty g.
Proof.
  unfold handleChoice. destruct (pokemon1 g), (pokemon2 g); try reflexivity.
  destruct (cooldown g >? 0); reflexivity.
Qed.

(** X16: the difficulty is only ever changed by a difficulty button that
    the screen offers, and to the value of that button; while a game is
    being played no event changes it. *)
Theorem difficulty_fixed_while_playing (s : Session) (e : Event) :
  (difficulty (game (react e s)) <> difficulty (game s) ->
   exists d, e = clickStart d /\ startEnabled (game s) = true /\
             difficulty (game (react e s)) = d) /\
  (gameStatus (game s) = playing ->
   difficulty (game (react e s)) = difficulty (game s)).
Proof.
  assert (Hd : forall s', difficulty (game (settle s s')) = difficulty (game s')).
  { intros s'. unfold settle. destruct (_ =? _); [reflexivity |].
    rewrite highScoreEffect_game. destruct (_ >? _); reflexivity. }
  unfold react. rewrite Hd. split.
  - destruct e as [d | choice | | o1 o2 | ]; unfold dispatch.
    + destruct (startEnabled (game s)) eqn:En; [| congruence].
      intros _. exists d. repeat split.
    + intros H. exfalso. apply H.
      destruct (chooseEnabled (game s)); [| reflexivity].
      pose proof (handleChoice_difficulty choice (game s)) as D.
      destruct (handleChoice choice (game s)). exact D.
    + intros H. exfalso. apply H. destruct (timers s); reflexivity.
    + intros H. exfalso. apply H. destruct (inflight s); [reflexivity |].
      unfold battleLoaded. destruct o1, o2; reflexivity.
    + intros H. exfalso. apply H. cbn. unfold cooldownTick.
      destruct (_ >? _); reflexivity.
  - intros G.
    destruct e as [d | choice | | o1 o2 | ]; unfold dispatch.
    + unfold startEnabled, render. rewrite G. destruct (isLoading (game s)); reflexivity.
    + destruct (chooseEnabled (game s)); [| reflexivity].
      pose proof (handleChoice_difficulty choice (game s)) as D.
      destruct (handleChoice choice (game s)). exact D.
    + destruct (timers s); reflexivity.
    + destruct (inflight s); [reflexivity |].
      unfold battleLoaded. destruct o1, o2; reflexivity.
    + cbn. unfold cooldownTick. destruct (_ >? _); reflexivity.
Qed.

Lemma difficulty_fixed_while_playing_witness :
  difficulty (game (react (clickStart hard)
    (mkSession (startGame easy (initialState None)) None 0 1))) = easy.
Proof.
  apply (proj2 (difficulty_fixed_while_playing
    (mkSession (startGame easy (initialState None)) None 0 1) (clickStart hard))).
  reflexivity.
Defined.

(** ** Cost and cache of a fetch *)

Lemma samplingLoop_effects (env : Env) (captured : Difficulty)
    (excl : option Pokemon) (n : nat) (net : Net) :
  (draws net <= draws (snd (samplingLoop env captured excl n net)) <= draws net + n)%nat /\
  (requests net <= requests (snd (samplingLoop env captured excl n net)))%nat /\
  (requests (snd (samplingLoop env captured excl n net)) + draws net
     <= requests net + draws (snd (samplingLoop env captured excl n net)))%nat /\
  (n <> 0%nat -> (draws net < draws (snd (samplingLoop env captured excl n net)))%nat) /\
  dom (pokemonCache net) ⊆ dom (pokemonCache (snd (samplingLoop env captured excl n net))).
Proof.
  revert net. induction n as [| n IH]; intros net.
  - cbn. repeat split; try lia. congruence.
  - assert (Hreq :
      match pokemonCache net !! (Math_random_898 env (draws net) + 1) with
      | Some cached => accepts captured excl cached = false
      | None => True
      end ->
      (draws net <= draws (snd (samplingLoop env captured excl (S n) net))
         <= draws net + S n)%nat /\
      (requests net <= requests (snd (samplingLoop env captured excl (S n) net)))%nat /\
      (requests (snd (samplingLoop env captured excl (S n) net)) + draws net
         <= requests net + draws (snd (samplingLoop env captured excl (S n) net)))%nat /\
      (S n <> 0%nat ->
       (draws net < draws (snd (samplingLoop env captured excl (S n) net)))%nat) /\
      dom (pokemonCache net)
        ⊆ dom (pokemonCache (snd (samplingLoop env captured excl (S n) net)))).
    { intros Hc. rewrite (samplingLoop_request env captured excl n net Hc).
      destruct (axios_get env (requests net) _) as [p |];
        [| cbn; repeat split; try lia; reflexivity].
      cbv zeta. destruct (accepts captured excl p).
      - cbn. repeat split; try lia. apply dom_insert_subseteq.
      - specialize (IH (mkNet (S (draws net)) (S (requests net))
          (<[Math_random_898 env (draws net) + 1 := p]> (pokemonCache net)))).
        cbn [draws requests pokemonCache] in IH.
        destruct IH as (Hd & Hr & Hrd & _ & Hdom).
        repeat split; try lia.
        etrans; [apply dom_insert_subseteq | exact Hdom]. }
    destruct (pokemonCache net !! (Math_random_898 env (draws net) + 1))
      as [c |] eqn:Hc; [| apply Hreq; exact I].
    destruct (accepts captured excl c) eqn:Ha; [| apply Hreq; reflexivity].
    rewrite (samplingLoop_cached env captured excl n net c Hc Ha).
    cbn. repeat split; try lia. reflexivity.
Qed.

(** A loop that runs out has drawn and requested once per iteration, and
    every answer was there and was rejected. *)
Lemma samplingLoop_exhausted (env : Env) (captured : Difficulty)
    (excl : option Pokemon) (n : nat) (net net' : Net) :
  samplingLoop env captured excl n net = (Some None, net') ->
  draws net' = (draws net + n)%nat /\
  requests net' = (requests net + n)%nat /\
  forall k, (k < n)%nat ->
    exists q, axios_get env (requests net + k)
                (Math_random_898 env (draws net + k) + 1) = Some q /\
              accepts captured excl q = false.
Proof.
  revert net. induction n as [| n IH]; intros net H.
  - unfold samplingLoop, mret, Async_ret in H. simplify_eq.
    split; [lia | split; [lia | intros k Hk; lia]].
  - assert (Hc : match pokemonCache net !! (Math_random_898 env (draws net) + 1) with
                 | Some cached => accepts captured excl cached = false
                 | None => True
                 end).
    { destruct (pokemonCache net !! (Math_random_898 env (draws net) + 1))
        as [c |] eqn:Hc; [| exact I].
      destruct (accepts captured excl c) eqn:Ha; [| reflexivity].
      rewrite (samplingLoop_cached env captured excl n net c Hc Ha) in H.
      discriminate. }
    rewrite (samplingLoop_request env captured excl n net Hc) in H.
    destruct (axios_get env (requests net) _) as [p |] eqn:Hp; [| discriminate].
    cbv zeta in H. destruct (accepts captured excl p) eqn:Ha; [discriminate |].
    apply IH in H as (Hd & Hr & Hall). cbn [draws requests] in Hd, Hr, Hall.
    split; [lia | split; [lia |]].
    intros [| k] Hk.
    + exists p. rewrite !Nat.add_0_r. split; assumption.
    + destruct (Hall k ltac:(lia)) as (q & Hq & Hqa).
      exists q. split; [| exact Hqa].
      replace (requests net + S k)%nat with (S (requests net) + k)%nat by lia.
      replace (draws net + S k)%nat with (S (draws net) + k)%nat by lia.
      exact Hq.
Qed.

(** X17: one call of [fetchRandomPokemon] draws at least one and at most
    six identifiers and makes at most six requests, never more requests
    than draws; and it never removes an identifier from the cache. *)
Theorem fetchRandomPokemon_bounded (env : Env) (captured : Difficulty)
    (excl : option Pokemon) (net : Net) :
  (draws net + 1 <= draws (snd (fetchRandomPokemon env captured excl net))
     <= draws net + 6)%nat /\
  (requests net <= requests (snd (fetchRandomPokemon env captured excl net))
     <= requests net + 6)%nat /\
  (requests (snd (fetchRandomPokemon env captured excl net)) + draws net
     <= requests net + draws (snd (fetchRandomPokemon env captured excl net)))%nat /\
  dom (pokemonCache net)
    ⊆ dom (pokemonCache (snd (fetchRandomPokemon env captured excl net))).
Proof.
  pose proof (samplingLoop_effects env captured excl maxAttempts net)
    as (Hd & Hr & Hrd & Hpos & Hdom).
  specialize (Hpos ltac:(discriminate)).
  unfold fetchRandomPokemon, catchNull, mbind, Async_bind.
  destruct (samplingLoop env captured excl maxAttempts net) as [[[p |] |] net1] eqn:E;
    cbn [snd] in *; unfold maxAttempts in *.
  - cbn. repeat split; try lia. exact Hdom.
  - apply samplingLoop_exhausted in E as (Ed & Er & _).
    unfold randomId, axiosGet. cbn [draws requests].
    destruct (axios_get env _ _); cbn; repeat split; try lia; exact Hdom.
  - cbn. repeat split; try lia. exact Hdom.
Qed.

Lemma fetch_unexcluded_cached (env : Env) (captured : Difficulty) (net : Net)
    (cached : Pokemon) :
  pokemonCache net !! (Math_random_898 env (draws net) + 1) = Some cached ->
  fetchRandomPokemon env captured None net =
    (Some cached, mkNet (S (draws net)) (requests net) (pokemonCache net)).
Proof.
  intros Hc. unfold fetchRandomPokemon, catchNull, mbind, Async_bind, maxAttempts.
  rewrite (samplingLoop_cached env captured None 4 net cached Hc eq_refl). reflexivity.
Qed.

Lemma fetch_unexcluded_request (env : Env) (captured : Difficulty) (net : Net) :
  pokemonCache net !! (Math_random_898 env (draws net) + 1) = None ->
  fetchRandomPokemon env captured None net =
    match axios_get env (requests net) (Math_random_898 env (draws net) + 1) with
    | Some pokemon =>
        (Some pokemon,
         mkNet (S (draws net)) (S (requests net))
           (<[Math_random_898 env (draws net) + 1 := pokemon]> (pokemonCache net)))
    | None => (None, mkNet (S (draws net)) (S (requests net)) (pokemonCache net))
    end.
Proof.
  intros Hc. unfold fetchRandomPokemon, catchNull, mbind, Async_bind, maxAttempts.
  rewrite samplingLoop_request by (rewrite Hc; exact I).
  destruct (axios_get env (requests net) _); reflexivity.
Qed.

(** X18: without a record to exclude, [fetchRandomPokemon] draws one
    identifier and returns the record cached for it without any request;
    when none is cached it makes exactly one request, and returns and
    caches the answer, or returns null when the request fails.  The
    difficulty plays no part. *)
Theorem fetchRandomPokemon_first_candidate (env : Env) (captured : Difficulty)
    (net : Net) :
  fetchRandomPokemon env captured None net =
    match pokemonCache net !! (Math_random_898 env (draws net) + 1) with
    | Some cached =>
        (Some cached, mkNet (S (draws net)) (requests net) (pokemonCache net))
    | None =>
        match axios_get env (requests net) (Math_random_898 env (draws net) + 1) with
        | Some pokemon =>
            (Some pokemon,
             mkNet (S (draws net)) (S (requests net))
               (<[Math_random_898 env (draws net) + 1 := pokemon]> (pokemonCache net)))
        | None =>
            (None, mkNet (S (draws net)) (S (requests net)) (pokemonCache net))
        end
    end.
Proof.
  destruct (pokemonCache net !! (Math_random_898 env (draws net) + 1))
    as [c |] eqn:Hc.
  - apply fetch_unexcluded_cached, Hc.
  - apply fetch_unexcluded_request, Hc.
Qed.

(** X19: for a [fetchRandomPokemon] that was built under the hard
    difficulty (whatever the difficulty of the state is by then), a
    returned record that is not within 50 points of the excluded one can
    only be the answer to the sixth request, made after five answers that
    were all there and all more than 50 points away. *)
Theorem hard_dissimilar_only_after_five (env : Env) (ex p : Pokemon) (net : Net) :
  fst (fetchRandomPokemon env hard (Some ex) net) = Some p ->
  isSimilarStats p ex = true \/
  (draws (snd (fetchRandomPokemon env hard (Some ex) net)) = (draws net + 6)%nat /\
   requests (snd (fetchRandomPokemon env hard (Some ex) net)) = (requests net + 6)%nat /\
   axios_get env (requests net + 5) (Math_random_898 env (draws net + 5) + 1) = Some p /\
   forall k, (k < 5)%nat ->
     exists q, axios_get env (requests net + k)
                 (Math_random_898 env (draws net + k) + 1) = Some q /\
               isSimilarStats q ex = false).
Proof.
  unfold fetchRandomPokemon, catchNull, mbind, Async_bind.
  destruct (samplingLoop env hard (Some ex) maxAttempts net) as [[[q |] |] net1] eqn:E;
    cbn [fst snd]; [| | discriminate].
  - intros H. injection H as ->. left.
    pose proof (samplingLoop_hard_similar env ex _ _ _ _ E) as Hs.
    unfold isSimilarStats. apply Z.leb_le. exact Hs.
  - apply samplingLoop_exhausted in E as (Ed & Er & Hall). unfold maxAttempts in *.
    unfold randomId, axiosGet. cbn [fst snd draws requests]. rewrite Ed, Er.
    intros H. right. repeat split; try lia; try exact H.
    intros k Hk. destruct (Hall k Hk) as (q & Hq & Ha). exists q. split; [exact Hq |].
    unfold accepts in Ha. rewrite bool_decide_eq_true_2 in Ha by reflexivity.
    exact Ha.
Qed.

Lemma hard_dissimilar_only_after_five_witness :
  isSimilarStats (sample 6 900) (sample 100 300) = true \/
  (draws (snd (fetchRandomPokemon countingEnv hard (Some (sample 100 300)) emptyNet))
     = (draws emptyNet + 6)%nat /\
   requests (snd (fetchRandomPokemon countingEnv hard (Some (sample 100 300)) emptyNet))
     = (requests emptyNet + 6)%nat /\
   axios_get countingEnv (requests emptyNet + 5)
     (Math_random_898 countingEnv (draws emptyNet + 5) + 1) = Some (sample 6 900) /\
   forall k, (k < 5)%nat ->
     exists q, axios_get countingEnv (requests emptyNet + k)
                 (Math_random_898 countingEnv (draws emptyNet + k) + 1) = Some q /\
               isSimilarStats q (sample 100 300) = false).
Proof.
  apply (hard_dissimilar_only_after_five countingEnv (sample 100 300)
           (sample 6 900) emptyNet).
  vm_compute. reflexivity.
Defined.

(** X20: a [fetchRandomPokemon] that was built under the easy difficulty
    (whatever the difficulty of the state is by then) is never cheap with
    a record to exclude: whenever it returns a record, it has drawn six
    identifiers and made six requests, five of them for records it then
    throws away. *)
Theorem easy_second_candidate_cost (env : Env) (ex p : Pokemon) (net : Net) :
  fst (fetchRandomPokemon env easy (Some ex) net) = Some p ->
  draws (snd (fetchRandomPokemon env easy (Some ex) net)) = (draws net + 6)%nat /\
  requests (snd (fetchRandomPokemon env easy (Some ex) net)) = (requests net + 6)%nat /\
  forall k, (k < 5)%nat ->
    is_Some (axios_get env (requests net + k)
               (Math_random_898 env (draws net + k) + 1)).
Proof.
  unfold fetchRandomPokemon, catchNull, mbind, Async_bind.
  pose proof (samplingLoop_easy env ex maxAttempts net) as H.
  destruct (loopReplies env (draws net) (requests net) maxAttempts).
  - destruct H as (net1 & E & _). rewrite E.
    apply samplingLoop_exhausted in E as (Ed & Er & Hall). unfold maxAttempts in *.
    unfold randomId, axiosGet. cbn [fst snd draws requests]. intros _.
    split; [lia | split; [lia |]].
    intros k Hk. destruct (Hall k Hk) as (q & Hq & _). exists q. exact Hq.
  - destruct (samplingLoop env easy (Some ex) maxAttempts net) as [[found |] net1];
      cbn [fst] in *; discriminate.
Qed.

Lemma easy_second_candidate_cost_witness :
  requests (snd (fetchRandomPokemon repeatingEnv easy (Some (sample 25 320)) emptyNet))
    = (requests emptyNet + 6)%nat.
Proof.
  apply (easy_second_candidate_cost repeatingEnv (sample 25 320) (sample 25 320) emptyNet).
  vm_compute. reflexivity.
Defined.

(** X21: a [fetchRandomPokemon] that was built under the hard difficulty
    (whatever the difficulty of the state is by then) takes the first
    record drawn at once when it is within 50 points of the excluded one:
    from the cache without a request, or as the answer to the first
    request.  A record is within 50 points of itself, so when the excluded
    record's own identifier is drawn it is returned again. *)
Theorem hard_takes_first_similar (env : Env) (ex p : Pokemon) (net : Net) :
  isSimilarStats p ex = true ->
  (pokemonCache net !! (Math_random_898 env (draws net) + 1) = Some p ->
   fetchRandomPokemon env hard (Some ex) net =
     (Some p, mkNet (S (draws net)) (requests net) (pokemonCache net))) /\
  (pokemonCache net !! (Math_random_898 env (draws net) + 1) = None ->
   axios_get env (requests net) (Math_random_898 env (draws net) + 1) = Some p ->
   fetchRandomPokemon env hard (Some ex) net =
     (Some p, mkNet (S (draws net)) (S (requests net))
                (<[Math_random_898 env (draws net) + 1 := p]> (pokemonCache net)))) /\
  isSimilarStats ex ex = true.
Proof.
  intros Hs.
  assert (Ha : accepts hard (Some ex) p = true).
  { unfold accepts. rewrite bool_decide_eq_true_2 by reflexivity. exact Hs. }
  unfold fetchRandomPokemon, catchNull, mbind, Async_bind, maxAttempts.
  split; [| split].
  - intros Hc. rewrite (samplingLoop_cached env hard (Some ex) 4 net p Hc Ha).
    reflexivity.
  - intros Hc Hp. rewrite samplingLoop_request by (rewrite Hc; exact I).
    rewrite Hp. cbv zeta. rewrite Ha. reflexivity.
  - unfold isSimilarStats. apply Z.leb_le. lia.
Qed.

Lemma hard_takes_first_similar_witness :
  fst (fetchRandomPokemon repeatingEnv hard (Some (sample 25 320)) emptyNet)
    = Some (sample 25 320).
Proof.
  pose proof (hard_takes_first_similar repeatingEnv (sample 25 320) (sample 25 320)
                emptyNet eq_refl) as (_ & H & _).
  rewrite (H eq_refl eq_refl). reflexivity.
Defined.

(** ** The pre-fetch *)

Lemma drawIds_effects (env : Env) (n : nat) (net : Net) :
  draws (snd (drawIds env n net)) = (draws net + n)%nat /\
  requests (snd (drawIds env n net)) = requests net /\
  pokemonCache (snd (drawIds env n net)) = pokemonCache net /\
  length (fst (drawIds env n net)) = n.
Proof.
  revert net. induction n as [| n IH]; intros net; cbn [drawIds].
  - cbn. repeat split; lia.
  - specialize (IH (mkNet (S (draws net)) (requests net) (pokemonCache net))).
    destruct (drawIds env n _) as [rest net']. cbn [fst snd draws requests pokemonCache] in *.
    destruct IH as (Hd & Hr & Hc & Hl). cbn. repeat split; try assumption; lia.
Qed.

Lemma preFetchOne_effects (env : Env) (net : Net) (i : Z) :
  draws (preFetchOne env net i) = draws net /\
  (requests net <= requests (preFetchOne env net i) <= requests net + 1)%nat /\
  pokemonCache net ⊆ pokemonCache (preFetchOne env net i) /\
  (forall j p, pokemonCache (preFetchOne env net i) !! j = Some p ->
     pokemonCache net !! j = Some p \/ exists k, axios_get env k j = Some p) /\
  ((forall k j, axios_get env k j = None) ->
   pokemonCache (preFetchOne env net i) = pokemonCache net).
Proof.
  unfold preFetchOne.
  destruct (pokemonCache net !! i) as [c |] eqn:Hc.
  - repeat split; try lia; auto.
  - destruct (axios_get env (requests net) i) as [p |] eqn:Hp; cbn.
    + repeat split; try lia.
      * apply insert_subseteq, Hc.
      * intros j q Hj. destruct (decide (i = j)) as [<- | Hne].
        -- rewrite lookup_insert_eq in Hj. simplify_eq. right. eauto.
        -- rewrite lookup_insert_ne in Hj by exact Hne. left. exact Hj.
      * intros Hdown. rewrite Hdown in Hp. discriminate.
    + repeat split; try lia; auto.
Qed.

Lemma preFetch_fold_effects (env : Env) (ids : list Z) (net : Net) :
  draws (fold_left (preFetchOne env) ids net) = draws net /\
  (requests net <= requests (fold_left (preFetchOne env) ids net)
     <= requests net + length ids)%nat /\
  pokemonCache net ⊆ pokemonCache (fold_left (preFetchOne env) ids net) /\
  (forall j p, pokemonCache (fold_left (preFetchOne env) ids net) !! j = Some p ->
     pokemonCache net !! j = Some p \/ exists k, axios_get env k j = Some p) /\
  ((forall k j, axios_get env k j = None) ->
   pokemonCache (fold_left (preFetchOne env) ids net) = pokemonCache net).
Proof.
  revert net. induction ids as [| i ids IH]; intros net; cbn [fold_left length].
  - repeat split; try lia; auto.
  - destruct (preFetchOne_effects env net i) as (Hd & Hr & Hsub & Hsrc & Hdown).
    destruct (IH (preFetchOne env net i)) as (Hd' & Hr' & Hsub' & Hsrc' & Hdown').
    repeat split; try lia.
    + etrans; eassumption.
    + intros j p Hj. destruct (Hsrc' j p Hj) as [Hj' | Hj']; [| right; exact Hj'].
      apply Hsrc, Hj'.
    + intros H. rewrite (Hdown' H). apply Hdown, H.
Qed.

(** X22: the pre-fetch always completes: it draws exactly 20 identifiers
    and makes at most 20 requests; it only adds to the cache, leaving every
    record that was cached as it is; every record it adds is an answer of
    the service for that identifier; and with the service down it leaves
    the cache unchanged. *)
Theorem preFetchPokemon_effects (env : Env) (net : Net) :
  draws (preFetchPokemon env net) = (draws net + 20)%nat /\
  (requests net <= requests (preFetchPokemon env net) <= requests net + 20)%nat /\
  pokemonCache net ⊆ pokemonCache (preFetchPokemon env net) /\
  (forall i p, pokemonCache (preFetchPokemon env net) !! i = Some p ->
     pokemonCache net !! i = Some p \/ exists k, axios_get env k i = Some p) /\
  ((forall k i, axios_get env k i = None) ->
   pokemonCache (preFetchPokemon env net) = pokemonCache net).
Proof.
  unfold preFetchPokemon.
  pose proof (drawIds_effects env preFetchCount net) as (Hd & Hr & Hc & Hl).
  destruct (drawIds env preFetchCount net) as [ids net1]. cbn [fst snd] in *.
  destruct (preFetch_fold_effects env ids net1) as (Fd & Fr & Fsub & Fsrc & Fdown).
  rewrite Hl in Fr. unfold preFetchCount in *. rewrite Hc in *.
  repeat split; try lia; try assumption.
Qed.

(** ** Rounds *)

(** X23: the round that [startGame] loads is chosen under the difficulty
    the game had before the click, not under the one clicked: the records
    fetched, and everything done to the cache, are the same whichever
    button was pressed, and only the difficulty written to the state
    differs. *)
Theorem startGame_round_ignores_choice (env : Env) (d d' : Difficulty)
    (g : GameState) (net : Net) :
  snd (startGameRound env d g net) = snd (startGameRound env d' g net) /\
  pokemon1 (fst (startGameRound env d g net))
    = pokemon1 (fst (startGameRound env d' g net)) /\
  pokemon2 (fst (startGameRound env d g net))
    = pokemon2 (fst (startGameRound env d' g net)) /\
  difficulty (fst (startGameRound env d g net)) = d /\
  streak (fst (startGameRound env d g net)) = 0 /\
  gameStatus (fst (startGameRound env d g net)) = playing.
Proof.
  unfold startGameRound, loadNewBattle.
  destruct (fetchRandomPokemon env (difficulty g) None net) as [o1 net1].
  destruct (fetchRandomPokemon env (difficulty g) o1 net1) as [o2 net2].
  cbn [fst snd]. unfold battleLoaded.
  destruct o1, o2; repeat split.
Qed.

(** X24: when both fetches return a record, [loadNewBattle] puts the two
    records in place, clears choice and result, sets the cooldown to 0 and
    lowers the loading flag, and keeps streak, high score, game status,
    difficulty and achievements; in a game that is being played the round
    can then be answered at once: the battle screen is shown, the Choose
    buttons are enabled and [handleChoice] records the choice. *)
Theorem loadRound_success (env : Env) (captured : Difficulty) (g : GameState)
    (net : Net) (p1 p2 : Pokemon) (choice : Z) :
  fst (fetchRandomPokemon env captured None net) = Some p1 ->
  fst (fetchRandomPokemon env captured (Some p1)
         (snd (fetchRandomPokemon env captured None net))) = Some p2 ->
  pokemon1 (fst (loadNewBattle env captured g net)) = Some p1 /\
  pokemon2 (fst (loadNewBattle env captured g net)) = Some p2 /\
  userChoice (fst (loadNewBattle env captured g net)) = None /\
  result (fst (loadNewBattle env captured g net)) = None /\
  cooldown (fst (loadNewBattle env captured g net)) = 0 /\
  isLoading (fst (loadNewBattle env captured g net)) = false /\
  streak (fst (loadNewBattle env captured g net)) = streak g /\
  highScore (fst (loadNewBattle env captured g net)) = highScore g /\
  gameStatus (fst (loadNewBattle env captured g net)) = gameStatus g /\
  difficulty (fst (loadNewBattle env captured g net)) = difficulty g /\
  achievements (fst (loadNewBattle env captured g net)) = achievements g /\
  (gameStatus g = playing ->
   render (fst (loadNewBattle env captured g net)) = battleScreen /\
   chooseEnabled (fst (loadNewBattle env captured g net)) = true /\
   userChoice (fst (handleChoice choice (fst (loadNewBattle env captured g net))))
     = Some choice /\
   result (fst (handleChoice choice (fst (loadNewBattle env captured g net))))
     = Some (if choice =? calculateWinner p1 p2 then correct else wrong)).
Proof.
  intros E1 E2.
  assert (fst (loadNewBattle env captured g net) = setBattle p1 p2 g) as ->.
  { rewrite loadNewBattle_game, E1, E2. reflexivity. }
  do 11 (split; [reflexivity |]).
  intros G.
  rewrite (handleChoice_pass choice (setBattle p1 p2 g) p1 p2 eq_refl eq_refl)
    by (cbn; lia).
  unfold chooseEnabled, render. cbn. rewrite G. repeat split.
Qed.

Lemma loadRound_success_witness :
  pokemon1 (fst (loadNewBattle similarEnv easy (startGame easy (initialState None))
                   emptyNet)) = Some (sample 1 320) /\
  pokemon2 (fst (loadNewBattle similarEnv easy (startGame easy (initialState None))
                   emptyNet)) = Some (sample 7 320) /\
  result (fst (loadNewBattle similarEnv easy (lostRound) emptyNet)) = None.
Proof.
  pose proof (loadRound_success similarEnv easy (startGame easy (initialState None))
                emptyNet (sample 1 320) (sample 7 320) 1
                ltac:(vm_compute; reflexivity) ltac:(vm_compute; reflexivity))
    as (H1 & H2 & _).
  pose proof (loadRound_success similarEnv easy lostRound
                emptyNet (sample 1 320) (sample 7 320) 1
                ltac:(vm_compute; reflexivity) ltac:(vm_compute; reflexivity))
    as (_ & _ & _ & H4 & _).
  split; [exact H1 |]. split; [exact H2 | exact H4].
Defined.

(** ** Cache round trips *)

(** X25: a record returned for a call without exclusion is afterwards in
    the cache under the identifier that was drawn, so a later draw of the
    same identifier is answered with the same record and without a
    request. *)
Theorem first_candidate_cached (env : Env) (captured captured' : Difficulty)
    (net : Net) (p : Pokemon) :
  fst (fetchRandomPokemon env captured None net) = Some p ->
  pokemonCache (snd (fetchRandomPokemon env captured None net))
    !! (Math_random_898 env (draws net) + 1) = Some p /\
  (forall net',
     pokemonCache net' = pokemonCache (snd (fetchRandomPokemon env captured None net)) ->
     Math_random_898 env (draws net') = Math_random_898 env (draws net) ->
     fst (fetchRandomPokemon env captured' None net') = Some p /\
     requests (snd (fetchRandomPokemon env captured' None net')) = requests net').
Proof.
  intros H.
  assert (Hc : pokemonCache (snd (fetchRandomPokemon env captured None net))
                 !! (Math_random_898 env (draws net) + 1) = Some p).
  { destruct (pokemonCache net !! (Math_random_898 env (draws net) + 1)) as [c |] eqn:E.
    - rewrite (fetch_unexcluded_cached env captured net c E) in H |- *.
      cbn in H |- *. congruence.
    - rewrite (fetch_unexcluded_request env captured net E) in H |- *.
      destruct (axios_get env (requests net) _) as [q |]; cbn in H |- *;
        [| discriminate].
      simplify_eq. apply lookup_insert_eq. }
  split; [exact Hc |].
  intros net' Hcache Hdraw.
  rewrite (fetch_unexcluded_cached env captured' net' p)
    by (rewrite Hcache, Hdraw; exact Hc).
  split; reflexivity.
Qed.

Lemma first_candidate_cached_witness :
  pokemonCache (snd (fetchRandomPokemon repeatingEnv easy None emptyNet))
    !! (Math_random_898 repeatingEnv (draws emptyNet) + 1) = Some (sample 25 320).
Proof.
  apply (first_candidate_cached repeatingEnv easy hard emptyNet (sample 25 320)).
  vm_compute. reflexivity.
Defined.

Lemma drawIds_list (env : Env) (n : nat) (net : Net) :
  fst (drawIds env n net) =
    map (fun k => Math_random_898 env (draws net + k)%nat + 1) (seq 0 n).
Proof.
  revert net. induction n as [| n IH]; intros net; cbn [drawIds]; [reflexivity |].
  specialize (IH (mkNet (S (draws net)) (requests net) (pokemonCache net))).
  destruct (drawIds env n _) as [rest net']. cbn [fst draws] in *.
  cbn [seq map]. rewrite Nat.add_0_r. f_equal.
  rewrite IH, <- seq_shift, map_map. apply map_ext. intros k. f_equal. f_equal. lia.
Qed.

Lemma preFetch_fold_complete (env : Env) (ids : list Z) (net : Net) :
  (forall k j, is_Some (axios_get env k j)) ->
  forall i, In i ids ->
    is_Some (pokemonCache (fold_left (preFetchOne env) ids net) !! i).
Proof.
  intros Hup. revert net. induction ids as [| j ids IH]; intros net i Hin;
    cbn [fold_left]; [destruct Hin |].
  destruct Hin as [-> | Hin]; [| apply IH, Hin].
  destruct (preFetch_fold_effects env ids (preFetchOne env net i)) as (_ & _ & Hsub & _).
  eapply lookup_weaken_is_Some; [| exact Hsub].
  unfold preFetchOne.
  destruct (pokemonCache net !! i) as [c |] eqn:Hc; [rewrite Hc; eauto |].
  destruct (Hup (requests net) i) as [p Hp]. rewrite Hp. cbn.
  rewrite lookup_insert_eq. eauto.
Qed.

(** X26: when the service answers every request, each of the 20
    identifiers the pre-fetch draws has a record in the cache once it is
    done. *)
Theorem preFetchPokemon_complete (env : Env) (net : Net) (k : nat) :
  (forall n j, is_Some (axios_get env n j)) ->
  (k < 20)%nat ->
  is_Some (pokemonCache (preFetchPokemon env net)
             !! (Math_random_898 env (draws net + k)%nat + 1)).
Proof.
  intros Hup Hk. unfold preFetchPokemon.
  pose proof (drawIds_list env preFetchCount net) as Hl.
  destruct (drawIds env preFetchCount net) as [ids net1]. cbn [fst] in Hl.
  apply preFetch_fold_complete; [exact Hup |].
  rewrite Hl. apply in_map_iff. exists k. split; [reflexivity |].
  apply in_seq. unfold preFetchCount. lia.
Qed.

Lemma preFetchPokemon_complete_witness :
  is_Some (pokemonCache (preFetchPokemon countingEnv emptyNet)
             !! (Math_random_898 countingEnv (draws emptyNet + 7)%nat + 1)).
Proof.
  apply (preFetchPokemon_complete countingEnv emptyNet 7).
  - intros n j. eexists. reflexivity.
  - lia.
Defined.

(** ** Which difficulty a round is fetched under *)



